(** * curator: remote queue dispatch, file utilities and DEB repository jobs

    A shallow embedding of
    - [vendor/github.com/mongodb/amboy/queue/remote.go]
      ([NewRemoteUnordered], [remoteUnordered.Next]),
    - [vendor/github.com/mongodb/jasper/util.go]
      ([MakeEnclosingDirectories], [WriteFile]),
    - the repobuilder DEB job ([NewBuildDEBRepo], [createArchDirs],
      [gzipAndWriteToFile]),
    followed by the properties the specification states about them.

    Conventions.  A Go [error] value is an [option error], [None] being
    [nil]; a value of an interface or pointer type that may be [nil] is an
    [option].  External collaborators (the amboy [Driver], the operating
    system's file calls, [path/filepath], [compress/gzip]) are interfaces:
    type classes whose methods thread the collaborator's state explicitly.
    Every function returns, next to its result, the calls it issued and the
    log lines it wrote, in program order. *)

From Stdlib Require Import Ascii.
From stdpp Require Import base option list gmap strings pretty.

Local Open Scope string_scope.
Local Open Scope list_scope.

(** ** Go runtime values shared by the three packages *)

Module Go.

(** The [syscall.Errno] values the file calls can report. *)
Inductive Errno := ENOENT | EEXIST | ENOTDIR | EISDIR | EACCES | EIO.

(** Go errors: [errors.New]/[errors.Errorf] values, [*os.PathError]
    values and [errors.Wrap]/[errors.Wrapf] values of pkg/errors. *)
Inductive error :=
| ErrNew (msg : string)
| ErrPath (op path : string) (errno : Errno)
| ErrWrap (cause : error) (msg : string).

Definition errnoString (e : Errno) : string :=
  match e with
  | ENOENT => "no such file or directory"
  | EEXIST => "file exists"
  | ENOTDIR => "not a directory"
  | EISDIR => "is a directory"
  | EACCES => "permission denied"
  | EIO => "input/output error"
  end.

(** [err.Error()]. *)
Fixpoint Error (e : error) : string :=
  match e with
  | ErrNew msg => msg
  | ErrPath op path errno => op +:+ " " +:+ path +:+ ": " +:+ errnoString errno
  | ErrWrap cause msg => msg +:+ ": " +:+ Error cause
  end.

(** [os.IsNotExist]: true on the [ENOENT] path error only; false on
    [nil] and on errors wrapped by pkg/errors. *)
Definition IsNotExist (err : option error) : bool :=
  match err with
  | Some (ErrPath _ _ ENOENT) => true
  | _ => false
  end.

(** What a call of a function that may dereference [nil] does. *)
Inductive outcome (A : Type) :=
| Ret (a : A)
| Panic.
Global Arguments Ret {A} a.
Global Arguments Panic {A}.

End Go.

(** ** grip: levelled logging and the error catcher *)

Module grip.
Import Go.

Inductive Level := Debug | Info | Notice | Warning | Error.

(** A log line: the level and what was passed to the logger, either an
    error value, or a format string with its integer and string
    arguments. *)
Inductive Message :=
| MsgError (e : error)
| MsgFormat (fmt : string) (ints : list Z) (strs : list string)
| MsgLine (parts : list string).

Record LogLine := { level : Level; message : Message }.

(** [grip.Warning(err)] for a non-nil error. *)
Definition WarningErr (e : error) : list LogLine :=
  [{| level := Warning; message := MsgError e |}].

(** [grip.CatchNotice(err)], [grip.CatchError(err)]: log at the level
    when [err] is not [nil], do nothing otherwise. *)
Definition Catch (lvl : Level) (err : option error) : list LogLine :=
  match err with
  | Some e => [{| level := lvl; message := MsgError e |}]
  | None => []
  end.
Definition CatchNotice := Catch Notice.
Definition CatchError := Catch Error.

Definition Logf (lvl : Level) (fmt : string) (ints : list Z)
    (strs : list string) : list LogLine :=
  [{| level := lvl; message := MsgFormat fmt ints strs |}].

(** [grip.Errorln(parts...)], [grip.Noticeln(parts...)]. *)
Definition Logln (lvl : Level) (parts : list string) : list LogLine :=
  [{| level := lvl; message := MsgLine parts |}].

(** The line feed that joins the collected messages. *)
Definition newline : string :=
  String (Ascii.Ascii false true false true false false false false) EmptyString.

(** The catcher: an ordered collection of errors.  [Add] ignores [nil];
    [Resolve] is [nil] on the empty collection and otherwise one error
    whose message joins the collected messages, one per line. *)
Definition Catcher := list error.

Definition NewCatcher : Catcher := [].

Definition Add (c : Catcher) (err : option error) : Catcher :=
  match err with
  | Some e => c ++ [e]
  | None => c
  end.

Definition HasErrors (c : Catcher) : bool :=
  match c with [] => false | _ => true end.

Definition Resolve (c : Catcher) : option error :=
  if HasErrors c
  then Some (ErrNew (String.concat newline (map Go.Error c)))
  else None.

End grip.

(** ** amboy: jobs and the driver interface *)

Module amboy.
Import Go.

(** Modelled from the spec: the [amboy.Job] interface is declared outside
    the sources at hand.  A job has a stable [ID], a type name and
    version, and a [Status] made of [Completed], [InProgress] and the
    fencing token [ModificationCount]. *)
Record JobStatusInfo := {
  Completed : bool;
  InProgress : bool;
  ModificationCount : Z
}.

Record Job := {
  ID : string;
  TypeName : string;
  Version : Z;
  Status : JobStatusInfo
}.

(** A value of interface type [amboy.Job]; [None] is [nil]. *)
Definition JobRef := option Job.

(** The part of the [queue.Driver] interface that [Next] calls.  Each
    method takes the backend's state and returns it updated. *)
Class Driver (D : Type) := {
  Lock : JobRef -> D -> option error * D;
  Get : string -> D -> (JobRef * option error) * D;
  Unlock : JobRef -> D -> option error * D
}.

End amboy.

(** ** amboy/queue/remote.go *)

Module queue.
Import Go grip amboy.

(** What [Next] did: driver calls with their results, and log lines. *)
Inductive Event :=
| CallLock (job : JobRef) (err : option error)
| CallGet (id : string) (job : JobRef) (err : option error)
| CallUnlock (job : JobRef) (err : option error)
| Logged (l : LogLine).

(** The debug line [Next] writes before it hands a job out. *)
Definition dispatchLine (count : nat) : Event :=
  Logged {| level := Debug;
            message := MsgFormat
              "returning job from remote source, count = %d; duration = %s"
              [Z.of_nat count] [] |}.

(** How a call of [Next] ends: it returns a (possibly nil) job, it
    stays parked in the [select] with nothing ready, or it panics on a
    nil interface value. *)
Inductive NextResult :=
| Returned (job : JobRef)
| Blocked
| Panicked.

Section Remote.
Context {D : Type} `{Driver D}.

(** Modelled from the spec: [remoteBase] is declared outside the
    sources at hand.  [Next] reads its buffered candidate [channel]
    (head first) and its [driver]; [SetRunner] stores the [runner]. *)
Record remoteBase (R : Type) := {
  channel : list JobRef;
  driver : D;
  runner : option R
}.
Global Arguments channel {R} _.
Global Arguments driver {R} _.
Global Arguments runner {R} _.

Record remoteUnordered (R : Type) := { base : remoteBase R }.
Global Arguments base {R} _.

Definition withState {R} (q : remoteUnordered R) (ch : list JobRef) (d : D)
    : remoteUnordered R :=
  {| base := {| channel := ch; driver := d; runner := runner (base q) |} |}.

(** The [for]/[select] loop of [Next].

    [done] tells whether [ctx.Done()] is closed.  When the context is
    canceled and a candidate is buffered, both cases of the [select]
    are ready and Go picks one at random: [pick count] is that choice
    in iteration [count] ([true] for the [ctx.Done()] case).  With
    neither ready the call stays blocked.  Every iteration that goes
    round again has taken a candidate off the channel, so the loop
    recurses on the channel's contents.  The duration argument of the
    final debug line is wall-clock time and is left out. *)
Fixpoint Next_loop (pick : nat -> bool) (done : bool) (count : nat)
    (ch : list JobRef) (d : D) : NextResult * (list JobRef * D) * list Event :=
  let count := S count in
  match ch with
  | [] =>
      if done then (Returned None, ([], d), []) else (Blocked, ([], d), [])
  | job :: ch' =>
      if done && pick count then (Returned None, (job :: ch', d), [])
      else
        let '(err, d1) := Lock job d in
        match err with
        | Some e =>
            let '(r, s, t) := Next_loop pick done count ch' d1 in
            (r, s, CallLock job err :: map Logged (WarningErr e) ++ t)
        | None =>
            match job with
            | None => (Panicked, (ch', d1), [CallLock job err])
            | Some jb =>
                let '(job2, err2, d2) := Get (ID jb) d1 in
                match err2 with
                | Some e2 =>
                    let '(uerr, d3) := Unlock job2 d2 in
                    let '(r, s, t) := Next_loop pick done count ch' d3 in
                    (r, s,
                     CallLock job err :: CallGet (ID jb) job2 err2
                       :: CallUnlock job2 uerr
                       :: map Logged (CatchNotice uerr ++ WarningErr e2) ++ t)
                | None =>
                    (Returned job2, (ch', d2),
                     CallLock job err :: CallGet (ID jb) job2 err2
                       :: [dispatchLine count])
                end
            end
        end
  end.

Definition Next {R} (q : remoteUnordered R) (pick : nat -> bool) (done : bool)
    : NextResult * remoteUnordered R * list Event :=
  let '(r, (ch, d), t) := Next_loop pick done 0 (channel (base q)) (driver (base q)) in
  (r, withState q ch d, t).

(** [NewRemoteUnordered].  [newRemoteBase], [pool.NewLocalWorkers] and
    [SetRunner] live outside the sources at hand and are taken as
    given; the runner's back-reference to the queue is the queue it is
    attached to.  The result is the [Remote] interface value: [Some]
    of the queue, never [nil]. *)
Section Constructor.
Context {R : Type}.
Variable newRemoteBase : remoteBase R.
Variable NewLocalWorkers : Z -> remoteUnordered R -> R.
Variable SetRunner : remoteUnordered R -> R -> option error * remoteUnordered R.

Definition NewRemoteUnordered (size : Z)
    : option (remoteUnordered R) * list LogLine :=
  let q := {| base := newRemoteBase |} in
  let '(err, q) := SetRunner q (NewLocalWorkers size q) in
  (Some q,
   CatchError err
     ++ Logf Info "creating new remote job queue with %d workers" [size] []).
End Constructor.

End Remote.

Arguments remoteBase : clear implicits.
Arguments remoteUnordered : clear implicits.

(** The candidates handed to [Driver.Lock], in call order. *)
Definition lockCalls (t : list Event) : list JobRef :=
  omap (fun e => match e with CallLock job _ => Some job | _ => None end) t.

End queue.


(** ** os, path/filepath, compress/gzip: the interfaces the file code calls *)

Module os.
Import Go.

Record FileInfo := { IsDir : bool }.

Definition FileMode := Z.
Definition ModeDir : FileMode := 2147483648%Z.
Definition ModePerm : FileMode := 511%Z.

(** The file calls.  [Stat] only reads.  An open [*os.File] is named by
    its path: [Create] opens (and truncates) it, [Write] appends to it.
    [WriteFile] is [ioutil.WriteFile]. *)
Class FileSystem (F : Type) := {
  Stat : string -> F -> option FileInfo * option error;
  MkdirAll : string -> FileMode -> F -> option error * F;
  Create : string -> F -> option error * F;
  Write : string -> list Byte.byte -> F -> option error * F;
  WriteFile : string -> list Byte.byte -> FileMode -> F -> option error * F
}.

(** The calls a function issued, with what each returned. *)
Inductive Call :=
| CallStat (path : string) (info : option FileInfo) (err : option error)
| CallMkdirAll (path : string) (perm : FileMode) (err : option error)
| CallCreate (path : string) (err : option error)
| CallWrite (path : string) (data : list Byte.byte) (err : option error)
| CallWriteFile (path : string) (data : list Byte.byte) (perm : FileMode)
    (err : option error).

(** Calls that can change the file system. *)
Definition isWrite (c : Call) : bool :=
  match c with
  | CallStat _ _ _ => false
  | _ => true
  end.

(** The error a call returned. *)
Definition callErr (c : Call) : option error :=
  match c with
  | CallStat _ _ err => err
  | CallMkdirAll _ _ err => err
  | CallCreate _ err => err
  | CallWrite _ _ err => err
  | CallWriteFile _ _ _ err => err
  end.

(** The path a call was given. *)
Definition callPath (c : Call) : string :=
  match c with
  | CallStat p _ _ => p
  | CallMkdirAll p _ _ => p
  | CallCreate p _ => p
  | CallWrite p _ _ => p
  | CallWriteFile p _ _ _ => p
  end.

End os.

Module filepath.

Class FilePath := {
  Join : list string -> string;
  Dir : string -> string
}.

End filepath.

Module io.
Import Go.

(** An [io.Reader]: the bytes it yields, then [io.EOF] ([None]) or a read
    error. *)
Record Reader := { data : list Byte.byte; readErr : option error }.

End io.

Module gzip.
Import Go.

Definition BestCompression : Z := 9%Z.

(** One run of [NewWriterLevel], [Write], [Close] over a [bytes.Buffer]:
    the stage that failed, or the compressed bytes. *)
Inductive Run :=
| NewWriterFailed (e : error)
| WriteFailed (e : error)
| CloseFailed (e : error)
| Compressed (out : list Byte.byte).

Class Gzip := { run : Z -> list Byte.byte -> Run }.

End gzip.

(** ** jasper/util.go *)

Module jasper.
Import Go os filepath io.

Section Util.
Context {F : Type} `{FileSystem F} `{FilePath}.

Definition MakeEnclosingDirectories (path : string) (fs : F)
    : outcome (option error * F) * list Call :=
  let '(info, err) := Stat path fs in
  if IsNotExist err then
    let '(err', fs1) := MkdirAll path (Z.lor ModeDir ModePerm) fs in
    match err' with
    | Some e =>
        (Ret (Some e, fs1),
         [CallStat path info err; CallMkdirAll path (Z.lor ModeDir ModePerm) err'])
    | None =>
        (Ret (None, fs1),
         [CallStat path info err; CallMkdirAll path (Z.lor ModeDir ModePerm) err'])
    end
  else
    match info with
    | None => (Panic, [CallStat path info err])
    | Some i =>
        if negb (IsDir i) then
          (Ret (Some (ErrNew ("'" +:+ path +:+ "' already exists and is not a directory")),
                fs),
           [CallStat path info err])
        else (Ret (None, fs), [CallStat path info err])
    end.

(** [io.Copy(file, reader)]: what was read is written; a write error is
    returned first, else the reader's. *)
Definition Copy (file : string) (reader : Reader) (fs : F)
    : option error * F * list Call :=
  let '(werr, fs1) := Write file (data reader) fs in
  match werr with
  | Some e => (Some e, fs1, [CallWrite file (data reader) werr])
  | None => (readErr reader, fs1, [CallWrite file (data reader) werr])
  end.

Definition WriteFile (reader : Reader) (path : string) (fs : F)
    : outcome (option error * F) * list Call :=
  match MakeEnclosingDirectories (Dir path) fs with
  | (Panic, t) => (Panic, t)
  | (Ret (Some err, fs1), t) =>
      (Ret (Some (ErrWrap err "problem making enclosing directories"), fs1), t)
  | (Ret (None, fs1), t) =>
      let '(err, fs2) := Create path fs1 in
      match err with
      | Some e => (Ret (Some e, fs2), t ++ [CallCreate path err])
      | None =>
          let '(err2, fs3, t2) := Copy path reader fs2 in
          match err2 with
          | Some e => (Ret (Some e, fs3), t ++ CallCreate path err :: t2)
          | None => (Ret (None, fs3), t ++ CallCreate path err :: t2)
          end
      end
  end.

End Util.

(** [sliceContains]: the [for ... range] scan returns at the first
    element equal to [name]. *)
Fixpoint sliceContains (group : list string) (name : string) : bool :=
  match group with
  | [] => false
  | g :: rest => if String.eqb name g then true else sliceContains rest name
  end.

End jasper.


(** ** strings, os/exec: what the repository rebuild calls *)

Module gostrings.

(** [strings.Split(s, string(sep))] for a one-character separator: the
    pieces between the separators, one more than there are separators. *)
Fixpoint Split (s : string) (sep : ascii) : list string :=
  match s with
  | EmptyString => [EmptyString]
  | String c rest =>
      if Ascii.eqb c sep then EmptyString :: Split rest sep
      else
        match Split rest sep with
        | [] => [String c EmptyString]
        | p :: ps => String c p :: ps
        end
  end.

(** The number of separators in a string. *)
Fixpoint Count (s : string) (sep : ascii) : nat :=
  match s with
  | EmptyString => 0
  | String c rest => (if Ascii.eqb c sep then 1 else 0) + Count rest sep
  end.

End gostrings.

Module exec.
Import Go.

(** [exec.Command(name, args...)] with [cmd.Dir] set, then
    [cmd.Output()]: the standard output and the error; the command may
    change the file system. *)
Class Exec (F : Type) := {
  Output : string -> list string -> string -> F -> list Byte.byte * option error * F
}.

End exec.

(** ** repobuilder: the DEB repository job *)

Module repobuilder.
Import Go grip os filepath gzip.

(** The fields of [RepositoryDefinition] the job reads. *)
Record RepositoryDefinition := {
  Architectures : list string;
  Component : string;
  CodeName : string;
  Edition : string;
  Bucket : string
}.

(** The struct [amboy.JobType], with its fields [Name] and [Version]. *)
Record amboyJobType := { JobTypeName : string; JobTypeVersion : Z }.

(** What the functions did: file calls, gzip runs, log lines. *)
Inductive Event :=
| Sys (c : Call)
| Gz (level : Z) (content : list Byte.byte) (r : Run)
| Logged (l : LogLine).

(** An event that reports a failure: a file call that returned an error
    or a gzip run that stopped at a failed stage. *)
Definition failed (e : Event) : bool :=
  match e with
  | Sys (CallStat _ _ _) => false
  | Sys c => bool_decide (is_Some (callErr c))
  | Gz _ _ (Compressed _) => false
  | Gz _ _ _ => true
  | Logged _ => false
  end.

(** The file-system changing call of an event, if it is one. *)
Definition writeOf (e : Event) : option Call :=
  match e with
  | Sys c => if isWrite c then Some c else None
  | _ => None
  end.

(** The octal permission literals [0644] and [0755]. *)
Definition perm0644 : FileMode := 420%Z.
Definition perm0755 : FileMode := 493%Z.

(** The paths handed to [os.Stat], in call order. *)
Definition statPaths (t : list Event) : list string :=
  omap (fun e => match e with Sys (CallStat p _ _) => Some p | _ => None end) t.

(** The events that report a failure, in order. *)
Definition failures (t : list Event) : list Event := List.filter failed t.

Section BuildDEBRepo.
Context {RepositoryConfig MongoDBVersion : Type}.

(** The repobuilder [Job] struct is declared outside the sources at hand;
    these are the fields [NewBuildDEBRepo] assigns, and [Output]. *)
Record Job := {
  release : option MongoDBVersion;
  WorkSpace : string;
  JobType : amboyJobType;
  Arch : string;
  Name : string;
  Distro : option RepositoryDefinition;
  Conf : option RepositoryConfig;
  PackagePaths : list string;
  Version : string;
  Profile : string;
  Output : gmap string string
}.

(** [BuildDEBRepoJob] embeds a [*Job]. *)
Record BuildDEBRepoJob := { Job_ : Job }.

Section Constructor.
(** [curator.NewMongoDBVersion], [os.Getwd], [job.GetNumber] and
    [buildRepoJob] live outside the sources at hand. *)
Variable NewMongoDBVersion : string -> option MongoDBVersion * option error.
Variable Getwd : string * option error.
Variable GetNumber : Z.
Variable buildRepoJob : Job.

Definition NewBuildDEBRepo (conf : option RepositoryConfig)
    (distro : option RepositoryDefinition) (version arch profile : string)
    (pkgs : list string)
    : (option BuildDEBRepoJob * option error) * list LogLine :=
  let r := buildRepoJob in
  let '(rel, err) := NewMongoDBVersion version in
  match err with
  | Some e => ((None, Some e), [])
  | None =>
      let '(wd, err) := Getwd in
      match err with
      | Some e =>
          ((None, Some e),
           Logln Error
             ["system error: cannot determine the current working directory.";
              "not creating a job object."])
      | None =>
          ((Some {| Job_ := {|
              release := rel;
              WorkSpace := wd;
              JobType := {| JobTypeName := "build-deb-repo"; JobTypeVersion := 0%Z |};
              Arch := if String.eqb arch "x86_64" then "amd64"
                      else if String.eqb arch "ppc64le" then "ppc64el"
                      else arch;
              Name := "build-deb-repo." +:+ pretty GetNumber;
              Distro := distro;
              Conf := conf;
              PackagePaths := pkgs;
              Version := version;
              Profile := profile;
              Output := Output r |} |},
            None), [])
      end
  end.
End Constructor.

Section Files.
Context {F : Type} `{FileSystem F} `{FilePath} `{Gzip}.

Definition gzipAndWriteToFile (fileName : string) (content : list Byte.byte) (fs : F)
    : option error * F * list Event :=
  let r := run BestCompression content in
  match r with
  | NewWriterFailed e =>
      (Some (ErrWrap e ("compressing file '" +:+ fileName +:+ "'")), fs,
       [Gz BestCompression content r])
  | WriteFailed e =>
      (Some (ErrWrap e ("writing content '" +:+ fileName)), fs,
       [Gz BestCompression content r])
  | CloseFailed e =>
      (Some (ErrWrap e ("closing buffer '" +:+ fileName)), fs,
       [Gz BestCompression content r])
  | Compressed out =>
      let '(err, fs1) := WriteFile fileName out perm0644 fs in
      match err with
      | Some e =>
          (Some (ErrWrap e ("writing compressed file '" +:+ fileName +:+ "'")), fs1,
           [Gz BestCompression content r; Sys (CallWriteFile fileName out perm0644 err)])
      | None =>
          (None, fs1,
           [Gz BestCompression content r; Sys (CallWriteFile fileName out perm0644 err)]
             ++ map Logged (Logln Notice ["wrote zipped packages file to:"; fileName]))
      end
  end.

(** The path of an architecture's directory. *)
Definition archPath (basePath arch : string) : string :=
  Join [basePath; "binary-" +:+ arch].

(** The [for ... range j.Distro.Architectures] loop of [createArchDirs],
    from a given catcher. *)
Fixpoint createArchDirs_loop (archs : list string) (basePath : string)
    (catcher : Catcher) (fs : F) : Catcher * F * list Event :=
  match archs with
  | [] => (catcher, fs, [])
  | arch :: rest =>
      let path := archPath basePath arch in
      let '(info, err) := Stat path fs in
      if IsNotExist err then
        let '(err1, fs1) := MkdirAll path perm0755 fs in
        match err1 with
        | Some _ =>
            let '(c, fs', t) := createArchDirs_loop rest basePath (Add catcher err1) fs1 in
            (c, fs', Sys (CallStat path info err) :: Sys (CallMkdirAll path perm0755 err1) :: t)
        | None =>
            let '(err2, fs2) := WriteFile (Join [path; "Packages"]) [] perm0644 fs1 in
            match err2 with
            | Some _ =>
                let '(c, fs', t) :=
                  createArchDirs_loop rest basePath (Add catcher err2) fs2 in
                (c, fs',
                 Sys (CallStat path info err) :: Sys (CallMkdirAll path perm0755 err1)
                   :: Sys (CallWriteFile (Join [path; "Packages"]) [] perm0644 err2) :: t)
            | None =>
                let '(err3, fs3, tg) :=
                  gzipAndWriteToFile (Join [path; "Packages.gz"]) [] fs2 in
                let '(c, fs', t) :=
                  createArchDirs_loop rest basePath (Add catcher err3) fs3 in
                (c, fs',
                 Sys (CallStat path info err) :: Sys (CallMkdirAll path perm0755 err1)
                   :: Sys (CallWriteFile (Join [path; "Packages"]) [] perm0644 err2)
                   :: tg ++ t)
            end
        end
      else
        let '(c, fs', t) := createArchDirs_loop rest basePath catcher fs in
        (c, fs', Sys (CallStat path info err) :: t)
  end.

(** The event of an iteration over a directory that is there. *)
Definition statOnly (basePath : string) (fs : F) (arch : string) : Event :=
  Sys (CallStat (archPath basePath arch)
         (Stat (archPath basePath arch) fs).1 (Stat (archPath basePath arch) fs).2).

(** The errors a pass hands to its catcher, read off its events in
    order: the error of a failed [MkdirAll] or of a failed write of the
    Packages file as it is, and for the Packages.gz file of the
    directory last given to [Stat] the error that [gzipAndWriteToFile]
    makes of a failed stage or of a failed write of the compressed
    bytes. *)
Fixpoint recordedFrom (dir : string) (t : list Event) : list error :=
  match t with
  | [] => []
  | Sys (CallStat p _ _) :: rest => recordedFrom p rest
  | Sys (CallMkdirAll _ _ (Some e)) :: rest => e :: recordedFrom dir rest
  | Gz _ _ (Compressed _) :: Sys (CallWriteFile p _ _ (Some e)) :: rest =>
      ErrWrap e ("writing compressed file '" +:+ p +:+ "'") :: recordedFrom dir rest
  | Sys (CallWriteFile _ _ _ (Some e)) :: rest => e :: recordedFrom dir rest
  | Gz _ _ (NewWriterFailed e) :: rest =>
      ErrWrap e ("compressing file '" +:+ Join [dir; "Packages.gz"] +:+ "'")
        :: recordedFrom dir rest
  | Gz _ _ (WriteFailed e) :: rest =>
      ErrWrap e ("writing content '" +:+ Join [dir; "Packages.gz"])
        :: recordedFrom dir rest
  | Gz _ _ (CloseFailed e) :: rest =>
      ErrWrap e ("closing buffer '" +:+ Join [dir; "Packages.gz"])
        :: recordedFrom dir rest
  | _ :: rest => recordedFrom dir rest
  end.

Definition recordedErrors (t : list Event) : list error := recordedFrom EmptyString t.

(** [createArchDirs]; dereferencing a nil [j.Distro] panics. *)
Definition createArchDirs (j : BuildDEBRepoJob) (basePath : string) (fs : F)
    : outcome (option error * F) * list Event :=
  match Distro (Job_ j) with
  | None => (Panic, [])
  | Some distro =>
      let '(catcher, fs', t) :=
        createArchDirs_loop (Architectures distro) basePath NewCatcher fs in
      (Ret (Resolve catcher, fs'), t)
  end.

End Files.
Section Pipeline.
Import gostrings.
Context {F : Type} `{FileSystem F} `{FilePath} `{Gzip} `{exec.Exec F}.

(** What [injectPackage] and [rebuildRepo] did: the events of the
    functions above, command runs, template calls, the calls of the
    job's other methods, and the deferred [wg.Done()]. *)
Inductive Step :=
| Ev (e : Event)
| CallOutput (name : string) (args : list string) (dir : string)
    (out : list Byte.byte) (err : option error)
| CallLinkPackages (path : string) (err : option error)
| CallParse (src : string) (err : option error)
| CallExecute (codeName component architectures : string)
    (out : list Byte.byte) (err : option error)
| CallSignFile (name ext : string) (overwrite : bool) (err : option error)
| CallBuildIndex (dir bucket : string) (err : option error)
| CallAddError (e : error)
| WgDone.

(** The error a step returned, for the steps that return one. *)
Definition stepErr (s : Step) : option error :=
  match s with
  | Ev (Sys c) => callErr c
  | CallOutput _ _ _ _ err => err
  | CallLinkPackages _ err => err
  | CallParse _ err => err
  | CallExecute _ _ _ _ err => err
  | CallSignFile _ _ _ err => err
  | CallBuildIndex _ _ err => err
  | _ => None
  end.

(** The [ioutil.WriteFile] calls among the steps: path and content. *)
Definition fileWrites (t : list Step) : list (string * list Byte.byte) :=
  omap (fun s => match s with
                 | Ev (Sys (CallWriteFile p content _ _)) => Some (p, content)
                 | _ => None
                 end) t.

(** The errors handed to [addError], in order. *)
Definition addedErrors (t : list Step) : list error :=
  omap (fun s => match s with CallAddError e => Some e | _ => None end) t.

Definition logged (ls : list LogLine) : list Step := map (fun l => Ev (Logged l)) ls.

(** The job with [Output[key] = value]. *)
Definition setOutput (j : BuildDEBRepoJob) (key value : string) : BuildDEBRepoJob :=
  {| Job_ := {|
       release := release (Job_ j);
       WorkSpace := WorkSpace (Job_ j);
       JobType := JobType (Job_ j);
       Arch := Arch (Job_ j);
       Name := Name (Job_ j);
       Distro := Distro (Job_ j);
       Conf := Conf (Job_ j);
       PackagePaths := PackagePaths (Job_ j);
       Version := Version (Job_ j);
       Profile := Profile (Job_ j);
       Output := <[key := value]> (Output (Job_ j)) |} |}.

(** The job's methods [linkPackages], [addError] and [signFile], the
    configuration's [Templates.Deb] table and
    [BuildIndexPageForDirectory], and text/template live outside the
    sources at hand.  The methods may change the job. *)
Variable Template : Type.
Variable Separator : ascii.
Variable linkPackages :
  BuildDEBRepoJob -> string -> F -> option error * BuildDEBRepoJob * F.
Variable addError : BuildDEBRepoJob -> error -> BuildDEBRepoJob.
Variable signFile :
  BuildDEBRepoJob -> string -> string -> bool -> F -> option error * BuildDEBRepoJob * F.
Variable debTemplates : RepositoryConfig -> gmap string string.
Variable BuildIndexPageForDirectory :
  RepositoryConfig -> string -> string -> F -> option error * F.
Variable Parse : string -> Template * option error.
Variable Execute : Template -> string -> string -> string -> list Byte.byte * option error.

(** [injectPackage]: the error of [createArchDirs] is kept aside and
    added to the catcher after the one of [linkPackages]. *)
Definition injectPackage (j : BuildDEBRepoJob) (local repoName : string) (fs : F)
    : outcome (string * option error * BuildDEBRepoJob * F) * list Step :=
  let catcher := NewCatcher in
  match Distro (Job_ j) with
  | None => (Panic, [])
  | Some distro =>
      let repoPath := Join [local; repoName; Component distro] in
      match createArchDirs j repoPath fs with
      | (Panic, t) => (Panic, map Ev t)
      | (Ret (err, fs1), t) =>
          let linkPath := Join [repoPath; "binary-" +:+ Arch (Job_ j)] in
          let '(lerr, j1, fs2) := linkPackages j linkPath fs1 in
          let catcher := Add catcher lerr in
          let catcher := Add catcher err in
          (Ret (repoPath, Resolve catcher, j1, fs2),
           map Ev t ++ [CallLinkPackages linkPath lerr])
      end
  end.

(** [rebuildRepo].  [dirParts[len(dirParts)-5:]] panics on fewer than
    five parts, and so does reading through a nil [j.Conf] or
    [j.Distro]; [signFile] is given the job and may change it, so the
    two are read again after it.  Every way out runs the deferred
    [wg.Done()].  [j.Output] is an allocated map; the mutex around the
    assignment to it guards other goroutines and is left out. *)
Definition rebuildRepo (j : BuildDEBRepoJob) (workingDir : string) (fs : F)
    : outcome (BuildDEBRepoJob * F) * list Step :=
  let arch := "binary-" +:+ Arch (Job_ j) in
  let sep := String Separator EmptyString in
  let dirParts := Split workingDir Separator in
  if (length dirParts <? 5)%nat then (Panic, [WgDone])
  else
    let n := (length dirParts - 5)%nat in
    let cmdArg := Join [Join (drop n dirParts); arch] in
    let cmdDir := sep +:+ Join (take n dirParts) in
    let t1 :=
      logged (Logf Info "running command='%s' path='%s'" []
                [String.concat " " ["dpkg-scanpackages"; "--multiversion"; cmdArg]; cmdDir]) in
    let '(out, err, fs1) := exec.Output "dpkg-scanpackages" ["--multiversion"; cmdArg] cmdDir fs in
    let t1 := t1 ++ [CallOutput "dpkg-scanpackages" ["--multiversion"; cmdArg] cmdDir out err] in
    match err with
    | Some e =>
        let e' := ErrWrap e ("building 'Packages': [" +:+ String.string_of_list_byte out +:+ "]") in
        (Ret (addError j e', fs1), t1 ++ [CallAddError e'; WgDone])
    | None =>
    let pkgsFile := Join [workingDir; arch; "Packages"] in
    let '(err, fs2) := WriteFile pkgsFile out perm0644 fs1 in
    let t2 := t1 ++ [Ev (Sys (CallWriteFile pkgsFile out perm0644 err))] in
    match err with
    | Some e => (Ret (addError j e, fs2), t2 ++ [CallAddError e; WgDone])
    | None =>
    let t2 := t2 ++ logged (Logln Notice ["wrote packages file to:"; pkgsFile]) in
    let '(err, fs3, tg) := gzipAndWriteToFile (pkgsFile +:+ ".gz") out fs2 in
    let t3 := t2 ++ map Ev tg in
    match err with
    | Some e =>
        let e' := ErrWrap e "compressing the 'Packages' file" in
        (Ret (addError j e', fs3), t3 ++ [CallAddError e'; WgDone])
    | None =>
    match Conf (Job_ j), Distro (Job_ j) with
    | None, _ | _, None => (Panic, t3 ++ [WgDone])
    | Some conf, Some distro =>
    match debTemplates conf !! Edition distro with
    | None =>
        let e' := ErrNew ("no 'Release' template defined for " +:+ Edition distro) in
        (Ret (addError j e', fs3), t3 ++ [CallAddError e'; WgDone])
    | Some releaseTmplSrc =>
    let '(tmpl, err) := Parse releaseTmplSrc in
    let t4 := t3 ++ [CallParse releaseTmplSrc err] in
    match err with
    | Some e =>
        let e' := ErrWrap e "reading Releases template" in
        (Ret (addError j e', fs3), t4 ++ [CallAddError e'; WgDone])
    | None =>
    let architectures := String.concat " " (Architectures distro) in
    let '(buffer, err) := Execute tmpl (CodeName distro) (Component distro) architectures in
    let t5 := t4 ++ [CallExecute (CodeName distro) (Component distro) architectures
                       buffer err] in
    match err with
    | Some e =>
        let e' := ErrWrap e "rendering Releases template" in
        (Ret (addError j e', fs3), t5 ++ [CallAddError e'; WgDone])
    | None =>
    let '(out2, err, fs4) := exec.Output "apt-ftparchive" ["release"; "../"] workingDir fs3 in
    let outString := String.string_of_list_byte out2 in
    let t6 :=
      t5 ++ [CallOutput "apt-ftparchive" ["release"; "../"] workingDir out2 err]
         ++ logged (Logf Info "generating release file: [command='%s', path='%s']" []
                      [String.concat " " ["apt-ftparchive"; "release"; "../"]; workingDir]
                    ++ Logln Debug [outString]) in
    match err with
    | Some e =>
        let e' := ErrWrap e ("generating Release content for " +:+ workingDir) in
        (Ret (addError j e', fs4), t6 ++ [CallAddError e'; WgDone])
    | None =>
    let releaseContent := buffer ++ out2 in
    let j1 := setOutput j ("sign-release-file-" +:+ workingDir) outString in
    let relFileName := Join [Dir workingDir; "Release"] in
    let '(err, fs5) := WriteFile relFileName releaseContent perm0644 fs4 in
    let t7 := t6 ++ [Ev (Sys (CallWriteFile relFileName releaseContent perm0644 err))] in
    match err with
    | Some e =>
        let e' := ErrWrap e ("writing Release file to disk " +:+ relFileName) in
        (Ret (addError j1 e', fs5), t7 ++ [CallAddError e'; WgDone])
    | None =>
    let t7 := t7 ++ logged (Logln Notice ["wrote release files to:"; relFileName]) in
    let '(err, j2, fs6) := signFile j1 relFileName "gpg" false fs5 in
    let t8 := t7 ++ [CallSignFile relFileName "gpg" false err] in
    match err with
    | Some e =>
        let e' := ErrWrap e ("signing Release file for " +:+ workingDir) in
        (Ret (addError j2 e', fs6), t8 ++ [CallAddError e'; WgDone])
    | None =>
    match Conf (Job_ j2), Distro (Job_ j2) with
    | None, _ | _, None => (Panic, t8 ++ [WgDone])
    | Some conf2, Some distro2 =>
    let '(err, fs7) := BuildIndexPageForDirectory conf2 workingDir (Bucket distro2) fs6 in
    let t9 := t8 ++ [CallBuildIndex workingDir (Bucket distro2) err] in
    match err with
    | Some e =>
        let e' := ErrWrap e ("building index.html pages for " +:+ workingDir) in
        (Ret (addError j2 e', fs7), t9 ++ [CallAddError e'; WgDone])
    | None => (Ret (j2, fs7), t9 ++ [WgDone])
    end end end end end end end end end end end end.

End Pipeline.

End BuildDEBRepo.

End repobuilder.


(** ** operations/poplar.go: the action of the "send" command *)

Module operations.
Import Go.

Section PoplarReport.
(** The flag readers of urfave/cli, [poplar.LoadReport],
    [rpc.UploadReport], the grpc dial calls and options and
    [errors.WithStack] live outside the sources at hand.  [W] is what
    the calls can change: the files and the network. *)
Context {CliContext Report Conn Creds DialOption W : Type}.
Variable cString : CliContext -> string -> string.
Variable cBool : CliContext -> string -> bool.
Variable LoadReport : string -> W -> option Report * option error * W.
Variable WithInsecure : DialOption.
Variable NewClientTLSFromFile : string -> string -> W -> option Creds * option error * W.
Variable WithTransportCredentials : option Creds -> DialOption.
Variable DialContext : string -> list DialOption -> W -> option Conn * option error * W.
Variable UploadReport : option Report -> option Conn -> W -> option error * W.
Variable WithStack : error -> error.

Definition serviceFlagName := "service".
Definition pathFlagName := "path".
Definition insecureFlagName := "insecure".
Definition certFileFlagName := "certfile".

(** The calls of the action, with what each returned, and the deferred
    [cancel()]. *)
Inductive Call :=
| CallLoadReport (fileName : string) (err : option error)
| CallNewClientTLS (certFile serverName : string) (creds : option Creds)
    (err : option error)
| CallDial (addr : string) (opts : list DialOption) (err : option error)
| CallUpload (report : option Report) (conn : option Conn) (err : option error)
| Cancel.

(** The [Action] of [poplarReport]. *)
Definition poplarReportAction (c : CliContext) (w : W) : option error * W * list Call :=
  let addr := cString c serviceFlagName in
  let fileName := cString c pathFlagName in
  let isInsecure := cBool c insecureFlagName in
  let certFile := cString c certFileFlagName in
  let '(report, err, w1) := LoadReport fileName w in
  match err with
  | Some e => (Some (WithStack e), w1, [CallLoadReport fileName err])
  | None =>
      let '(rpcOpts, w2, t2) :=
        if isInsecure then ([WithInsecure], w1, [])
        else
          let '(creds, cerr, w2) := NewClientTLSFromFile certFile "" w1 in
          ([WithTransportCredentials creds], w2,
           [CallNewClientTLS certFile "" creds cerr]) in
      let '(conn, err2, w3) := DialContext addr rpcOpts w2 in
      let t3 := CallLoadReport fileName err :: t2 ++ [CallDial addr rpcOpts err2] in
      match err2 with
      | Some e => (Some (WithStack e), w3, t3 ++ [Cancel])
      | None =>
          let '(err3, w4) := UploadReport report conn w3 in
          match err3 with
          | Some e => (Some (WithStack e), w4, t3 ++ [CallUpload report conn err3; Cancel])
          | None => (None, w4, t3 ++ [CallUpload report conn err3; Cancel])
          end
      end
  end.

End PoplarReport.

End operations.

(** ** In-memory collaborators

    Small implementations of the interfaces above, used to run the code
    on concrete inputs. *)

Module mem.
Import Go amboy os filepath gzip.

(** Modelled from the spec: the driver backends are outside the sources
    at hand.  The driver maps IDs to jobs and keeps a lock per ID,
    independent of the job's flags.  [Lock] fails with AlreadyLocked on a
    held lock; [Get] returns the stored job, or no job and NotFound;
    [Unlock] releases and is safe to call on a lock that is not held, and
    on nil it only reports. *)
Record MemDriver := { store : gmap string Job; locks : gset string }.

Definition memLock (j : JobRef) (d : MemDriver) : option error * MemDriver :=
  match j with
  | None => (Some (ErrNew "Lock: nil job"), d)
  | Some jb =>
      if decide (ID jb ∈ locks d) then (Some (ErrNew "AlreadyLocked"), d)
      else (None, {| store := store d; locks := {[ID jb]} ∪ locks d |})
  end.

Definition memGet (id : string) (d : MemDriver) : JobRef * option error * MemDriver :=
  match store d !! id with
  | Some jb => (Some jb, None, d)
  | None => (None, Some (ErrNew "NotFound"), d)
  end.

Definition memUnlock (j : JobRef) (d : MemDriver) : option error * MemDriver :=
  match j with
  | None => (Some (ErrNew "Unlock: nil job"), d)
  | Some jb => (None, {| store := store d; locks := locks d ∖ {[ID jb]} |})
  end.

#[export] Instance memDriver : Driver MemDriver :=
  {| Lock := memLock; Get := memGet; Unlock := memUnlock |}.

(** Slash-separated paths without [.] and [..] elements: [slashJoin]
    drops empty elements and joins the rest, [slashDir] cuts the last
    element off. *)
Definition slashJoin (elems : list string) : string :=
  String.concat "/" (filter (fun e => e ≠ EmptyString) elems).

Fixpoint beforeLastSlash (s : string) : option string :=
  match s with
  | EmptyString => None
  | String c rest =>
      match beforeLastSlash rest with
      | Some d => Some (String c d)
      | None => if Ascii.eqb c "/"%char then Some EmptyString else None
      end
  end.

Definition slashDir (path : string) : string :=
  match beforeLastSlash path with
  | None => "."
  | Some EmptyString => "/"
  | Some d => d
  end.

#[export] Instance slashPath : FilePath := {| Join := slashJoin; Dir := slashDir |}.

(** A file tree: directories (writable or not) and files by path. *)
Inductive Node :=
| NDir (writable : bool)
| NFile (content : list Byte.byte).

Definition memStat (path : string) (fs : gmap string Node)
    : option FileInfo * option error :=
  match fs !! path with
  | Some (NDir _) => (Some {| IsDir := true |}, None)
  | Some (NFile _) => (Some {| IsDir := false |}, None)
  | None =>
      match fs !! slashDir path with
      | Some (NFile _) => (None, Some (ErrPath "stat" path ENOTDIR))
      | _ => (None, Some (ErrPath "stat" path ENOENT))
      end
  end.

(** [n] bounds the number of missing ancestors. *)
Fixpoint memMkdirAll_rec (n : nat) (path : string) (fs : gmap string Node)
    : option error * gmap string Node :=
  match fs !! path with
  | Some (NDir _) => (None, fs)
  | Some (NFile _) => (Some (ErrPath "mkdir" path ENOTDIR), fs)
  | None =>
      match n with
      | O => (Some (ErrPath "mkdir" path ENOENT), fs)
      | S n' =>
          match memMkdirAll_rec n' (slashDir path) fs with
          | (Some e, fs1) => (Some e, fs1)
          | (None, fs1) =>
              match fs1 !! slashDir path with
              | Some (NDir true) => (None, <[path := NDir true]> fs1)
              | _ => (Some (ErrPath "mkdir" path EACCES), fs1)
              end
          end
      end
  end.

Definition memMkdirAll (path : string) (perm : FileMode) (fs : gmap string Node)
    : option error * gmap string Node :=
  memMkdirAll_rec (String.length path) path fs.

Definition memCreate (path : string) (fs : gmap string Node)
    : option error * gmap string Node :=
  match fs !! path with
  | Some (NDir _) => (Some (ErrPath "open" path EISDIR), fs)
  | _ =>
      match fs !! slashDir path with
      | Some (NDir true) => (None, <[path := NFile []]> fs)
      | Some (NDir false) => (Some (ErrPath "open" path EACCES), fs)
      | Some (NFile _) => (Some (ErrPath "open" path ENOTDIR), fs)
      | None => (Some (ErrPath "open" path ENOENT), fs)
      end
  end.

Definition memWrite (path : string) (data : list Byte.byte) (fs : gmap string Node)
    : option error * gmap string Node :=
  match fs !! path with
  | Some (NFile old) => (None, <[path := NFile (old ++ data)]> fs)
  | _ => (Some (ErrPath "write" path EIO), fs)
  end.

Definition memWriteFile (path : string) (data : list Byte.byte) (perm : FileMode)
    (fs : gmap string Node) : option error * gmap string Node :=
  match memCreate path fs with
  | (Some e, fs1) => (Some e, fs1)
  | (None, fs1) => memWrite path data fs1
  end.

#[export] Instance memFS : FileSystem (gmap string Node) :=
  {| Stat := memStat; MkdirAll := memMkdirAll; Create := memCreate;
     Write := memWrite; WriteFile := memWriteFile |}.

(** A gzip stand-in that never fails: the two magic bytes, then the
    content as it is. *)
#[export] Instance storedGzip : Gzip :=
  {| run := fun _ content => Compressed (Byte.x1f :: Byte.x8b :: content) |}.

(** Sample jobs and trees. *)
Definition job (id : string) (completed : bool) (count : Z) : Job :=
  {| ID := id; TypeName := "build-deb-repo"; amboy.Version := 0;
     Status := {| Completed := completed; InProgress := false;
                  ModificationCount := count |} |}.

Definition rootOnly : gmap string Node := {[ "/" := NDir true ]}.

(** Sample queues over the in-memory driver: the buffered candidates, the
    stored jobs and the IDs whose lock is held. *)
Definition queueOf (candidates : list JobRef) (stored : list Job) (held : list string)
    : queue.remoteUnordered MemDriver unit :=
  {| queue.base :=
       {| queue.channel := candidates;
          queue.driver :=
            {| store := list_to_map (map (fun jb => (ID jb, jb)) stored);
               locks := list_to_set held |};
          queue.runner := None |} |}.

(** The candidate predates the job's completion. *)
Definition staleQueue := queueOf [Some (job "A" false 0)] [job "A" true 1] [].
(** The candidate's job has since been saved three times. *)
Definition refreshedQueue := queueOf [Some (job "A" false 0)] [job "A" false 3] [].
(** The candidate's job is gone from the store. *)
Definition orphanQueue := queueOf [Some (job "A" false 0)] [] [].
(** The candidate is current. *)
Definition readyQueue := queueOf [Some (job "A" false 0)] [job "A" false 0] [].
(** Another worker holds the lock of the first candidate. *)
Definition contendedQueue :=
  queueOf [Some (job "A" false 0); Some (job "B" false 0)]
    [job "A" false 0; job "B" false 0] ["A"].

(** Sample trees: [/repo] holds the amd64 directory already; [/ro] is a
    directory that cannot be written to; [/etc/hosts] is a file. *)
Definition repoTree : gmap string Node :=
  {[ "/" := NDir true; "/repo" := NDir true; "/repo/binary-amd64" := NDir true ]}.

Definition dataTree : gmap string Node :=
  {[ "/" := NDir true; "/data" := NDir true; "/ro" := NDir false;
     "/etc" := NDir true; "/etc/hosts" := NFile [] ]}.

Definition hello : io.Reader :=
  {| io.data := [Byte.x68; Byte.x69]; io.readErr := None |}.

(** A sample DEB job over the given architectures. *)
Definition debJob (archs : list string)
    : repobuilder.BuildDEBRepoJob (RepositoryConfig := unit) (MongoDBVersion := unit) :=
  {| repobuilder.Job_ :=
       {| repobuilder.release := Some tt;
          repobuilder.WorkSpace := "/";
          repobuilder.JobType :=
            {| repobuilder.JobTypeName := "build-deb-repo";
               repobuilder.JobTypeVersion := 0 |};
          repobuilder.Arch := "amd64";
          repobuilder.Name := "build-deb-repo.0";
          repobuilder.Distro :=
            Some {| repobuilder.Architectures := archs;
                    repobuilder.Component := "main";
                    repobuilder.CodeName := "stretch";
                    repobuilder.Edition := "org";
                    repobuilder.Bucket := "repo" |};
          repobuilder.Conf := Some tt;
          repobuilder.PackagePaths := [];
          repobuilder.Version := "4.0.0";
          repobuilder.Profile := "default";
          repobuilder.Output := ∅ |} |}.

(** [NewBuildDEBRepo] where the version parses, the working directory is
    [/work] and the job number is 7. *)
Definition newDEB (arch : string) :=
  repobuilder.NewBuildDEBRepo (fun _ => (Some tt, None)) ("/work", None) 7
    (repobuilder.Job_ (debJob [])) (Some tt) None "4.0.0" arch "default" [].

(** Command runners: one whose commands succeed and print their own
    name, one that finds no command. *)
Definition echoExec : exec.Exec (gmap string Node) :=
  {| exec.Output := fun name _ _ fs => (String.list_byte_of_string name, None, fs) |}.

Definition noExec : exec.Exec (gmap string Node) :=
  {| exec.Output := fun name _ _ fs =>
       ([], Some (ErrNew ("exec: " +:+ name +:+ ": not found")), fs) |}.

(** A repository whose component directory [/r/a/b/c] is four levels
    down and holds the amd64 directory. *)
Definition rebuildTree : gmap string Node :=
  {[ "/" := NDir true; "/r" := NDir true; "/r/a" := NDir true; "/r/a/b" := NDir true;
     "/r/a/b/c" := NDir true; "/r/a/b/c/binary-amd64" := NDir true ]}.

(** [rebuildRepo] for the sample job: templates are their own source
    text, rendered as it is; signing and indexing do nothing; the sample
    job keeps no list of errors, so [addError] leaves it as it is. *)
Definition sampleRebuild (ex : exec.Exec (gmap string Node)) (workingDir : string)
    (fs : gmap string Node) :=
  repobuilder.rebuildRepo (H2 := ex) string "/"%char
    (fun j _ => j)
    (fun j _ _ _ fs => (None, j, fs))
    (fun _ => {[ "org" := "Origin: mongodb" ]})
    (fun _ _ _ fs => (None, fs))
    (fun src => (src, None))
    (fun tmpl _ _ _ => (String.list_byte_of_string tmpl, None))
    (debJob ["amd64"]) workingDir fs.

(** [injectPackage] for the sample job, with a [linkPackages] that fails
    when its target directory is missing. *)
Definition sampleInject (local repoName : string) (fs : gmap string Node) :=
  repobuilder.injectPackage
    (fun j path fs =>
       match fs !! path with
       | Some (NDir _) => (None, j, fs)
       | _ => (Some (ErrPath "link" path ENOENT), j, fs)
       end)
    (debJob ["amd64"; "arm64"]) local repoName fs.

(** The "send" action over a world that is the list of reports sent so
    far: the report file holds its own name, the service at "up:2288"
    answers, any other address does not, and the certificate file is
    missing. *)
Definition sampleSend (flags : gmap string string) (insecure : bool)
    (sent : list string) :=
  operations.poplarReportAction
    (CliContext := gmap string string) (Report := string) (Conn := string)
    (Creds := string) (DialOption := option (option string)) (W := list string)
    (fun c name => default "" (c !! name))
    (fun _ _ => insecure)
    (fun fileName w =>
       if String.eqb fileName "" then (None, Some (ErrNew "no such file"), w)
       else (Some fileName, None, w))
    None
    (fun certFile _ w => (None, Some (ErrPath "open" certFile ENOENT), w))
    Some
    (fun addr _ w =>
       if String.eqb addr "up:2288" then (Some addr, None, w)
       else (None, Some (ErrNew "connection refused"), w))
    (fun report _ w => (None, w ++ [default "" report]))
    (fun e => ErrWrap e "stack")
    flags sent.

End mem.

(** * Properties *)

(** ** The dispatch loop of [Next] *)

Section NextProperties.
Import Go grip amboy queue.
Context {D : Type} `{Driver D}.

(** One step of the loop when the [select] takes the [ctx.Done()] case. *)
Lemma Next_loop_done pick count (ch : list JobRef) (d : D) :
  ch = [] ∨ pick (S count) = true →
  Next_loop pick true count ch d = (Returned None, (ch, d), []).
Proof.
  intros [-> | Hp]; [reflexivity |].
  destruct ch as [| job ch']; [reflexivity |].
  simpl. rewrite Hp. reflexivity.
Qed.

(** A dispatched job comes out of a [Get] that directly follows the
    successful [Lock] of a candidate, and the driver is left as that
    [Get] left it. *)
Lemma Next_loop_dispatch pick done (ch : list JobRef) :
  ∀ count (d : D) j ch' d' t,
    Next_loop pick done count ch d = (Returned (Some j), (ch', d'), t) →
    ∃ skipped c d0 d1 pre n,
      ch = skipped ++ Some c :: ch' ∧
      Lock (Some c) d0 = (None, d1) ∧
      Get (ID c) d1 = (Some j, None, d') ∧
      t = pre ++ [CallLock (Some c) None; CallGet (ID c) (Some j) None;
                  dispatchLine n].
Proof.
  induction ch as [| job ch IH]; intros count d j ch' d' t; simpl.
  - destruct done; discriminate.
  - destruct (done && pick (S count)); [discriminate |].
    destruct (Lock job d) as [err d1] eqn:HL.
    destruct err as [e |].
    + destruct (Next_loop pick done (S count) ch d1) as [[r s] t1] eqn:HN.
      intros [= -> -> <-].
      destruct (IH _ _ _ _ _ _ HN) as (sk & c & d0 & d1' & pre & n & -> & H1 & H2 & ->).
      exists (job :: sk), c, d0, d1',
        (CallLock job (Some e) :: map Logged (WarningErr e) ++ pre), n.
      refine (conj eq_refl (conj H1 (conj H2 _))). reflexivity.
    + destruct job as [jb |]; [| discriminate].
      destruct (Get (ID jb) d1) as [[job2 err2] d2] eqn:HG.
      destruct err2 as [e2 |].
      * destruct (Unlock job2 d2) as [uerr d3] eqn:HU.
        destruct (Next_loop pick done (S count) ch d3) as [[r s] t1] eqn:HN.
        intros [= -> -> <-].
        destruct (IH _ _ _ _ _ _ HN) as (sk & c & d0 & d1' & pre & n & -> & H1 & H2 & ->).
        exists (Some jb :: sk), c, d0, d1',
          (CallLock (Some jb) None :: CallGet (ID jb) job2 (Some e2)
             :: CallUnlock job2 uerr
             :: map Logged (CatchNotice uerr ++ WarningErr e2) ++ pre), n.
        refine (conj eq_refl (conj H1 (conj H2 _))).
        simpl. rewrite <- app_assoc. reflexivity.
      * intros [= -> <- <- <-].
        exists [], jb, d, d1, [], (S count).
        exact (conj eq_refl (conj HL (conj HG eq_refl))).
Qed.

(** No line of [Next] is written at the [Error] level. *)
Lemma Next_loop_levels pick done (ch : list JobRef) :
  ∀ count (d : D) l,
    Logged l ∈ (Next_loop pick done count ch d).2 →
    level l = Warning ∨ level l = Notice ∨ level l = Debug.
Proof.
  induction ch as [| job ch IH]; intros count d l; simpl.
  - destruct done; simpl; intros Hin; inversion Hin.
  - destruct (done && pick (S count)); [simpl; intros Hin; inversion Hin |].
    destruct (Lock job d) as [err d1].
    destruct err as [e |].
    + specialize (IH (S count) d1 l).
      destruct (Next_loop pick done (S count) ch d1) as [[r s] t1].
      simpl in *. rewrite !elem_of_cons.
      intros [Hc | [Hc | Hc]]; [discriminate | | auto].
      injection Hc as ->. auto.
    + destruct job as [jb |].
      2: { simpl. rewrite list_elem_of_singleton. discriminate. }
      destruct (Get (ID jb) d1) as [[job2 err2] d2].
      destruct err2 as [e2 |].
      * destruct (Unlock job2 d2) as [uerr d3].
        specialize (IH (S count) d3 l).
        destruct (Next_loop pick done (S count) ch d3) as [[r s] t1].
        simpl in *. rewrite !elem_of_cons.
        intros [Hc | [Hc | [Hc | Hc]]]; try discriminate.
        rewrite map_app, <- app_assoc, !elem_of_app in Hc.
        destruct Hc as [Hc | [Hc | Hc]]; [| | auto].
        -- destruct uerr; simpl in Hc; [| inversion Hc].
           apply list_elem_of_singleton in Hc. injection Hc as ->. auto.
        -- simpl in Hc. apply list_elem_of_singleton in Hc. injection Hc as ->. auto.
      * simpl. rewrite !elem_of_cons.
        intros [Hc | [Hc | [Hc | Hc]]]; try discriminate; [| inversion Hc].
        injection Hc as ->. auto.
Qed.

(** With the context canceled the call never stays blocked. *)
Lemma Next_loop_canceled_not_blocked pick (ch : list JobRef) :
  ∀ count (d : D), (Next_loop pick true count ch d).1.1 ≠ Blocked.
Proof.
  induction ch as [| job ch IH]; intros count d; simpl; [discriminate |].
  destruct (pick (S count)); [discriminate |].
  destruct (Lock job d) as [err d1].
  destruct err as [e |].
  - specialize (IH (S count) d1).
    destruct (Next_loop pick true (S count) ch d1) as [[r s] t1]. exact IH.
  - destruct job as [jb |]; [| discriminate].
    destruct (Get (ID jb) d1) as [[job2 err2] d2].
    destruct err2 as [e2 |]; [| discriminate].
    destruct (Unlock job2 d2) as [uerr d3].
    specialize (IH (S count) d3).
    destruct (Next_loop pick true (S count) ch d3) as [[r s] t1]. exact IH.
Qed.

(** When [Get] yields a job whenever it reports no error, a nil result
    can only come from the [ctx.Done()] case. *)
Lemma Next_loop_nil_canceled pick done (ch : list JobRef) :
  (∀ id (d0 : D), (Get id d0).1 ≠ (None, None)) →
  ∀ count (d : D) s t,
    Next_loop pick done count ch d = (Returned None, s, t) → done = true.
Proof.
  intros Hget.
  induction ch as [| job ch IH]; intros count d s t; simpl.
  - destruct done; [reflexivity | discriminate].
  - destruct (done && pick (S count)) eqn:Hsel.
    { intros _. apply andb_true_iff in Hsel. tauto. }
    destruct (Lock job d) as [err d1].
    destruct err as [e |].
    + destruct (Next_loop pick done (S count) ch d1) as [[r s1] t1] eqn:HN.
      intros [= -> _ _]. eauto.
    + destruct job as [jb |]; [| discriminate].
      pose proof (Hget (ID jb) d1) as Hne.
      destruct (Get (ID jb) d1) as [[job2 err2] d2].
      destruct err2 as [e2 |].
      * destruct (Unlock job2 d2) as [uerr d3].
        destruct (Next_loop pick done (S count) ch d3) as [[r s1] t1] eqn:HN.
        intros [= -> _ _]. eauto.
      * intros [= -> _ _]. contradiction.
Qed.

End NextProperties.

Section NextTheorems.
Import Go grip amboy queue.
Context {D : Type} `{Driver D}.

(** C1 (as amended): [Next] makes no completion check of its own; the job
    it returns is the one [Driver.Get] reported for the candidate it
    locked.  So it returns no [Completed] job as long as no job that
    [Get] reported during the call is [Completed]. *)
Theorem Next_completed_as_driver_reports {R} (q q' : remoteUnordered D R) pick done j t :
  Next q pick done = (Returned (Some j), q', t) →
  (∀ id j' e, CallGet id (Some j') e ∈ t → Completed (Status j') = false) →
  Completed (Status j) = false.
Proof.
  unfold Next. intros HN Hget.
  destruct (Next_loop pick done 0 (channel (base q)) (driver (base q)))
    as [[r [ch d]] t0] eqn:HL.
  injection HN as -> _ ->.
  destruct (Next_loop_dispatch _ _ _ _ _ _ _ _ _ HL)
    as (sk & c & d0 & d1 & pre & n & _ & _ & _ & ->).
  apply (Hget (ID c) j None).
  rewrite elem_of_app, !elem_of_cons. auto.
Qed.

(** C3: a failed [Lock] drops the candidate and the loop goes on with the
    rest of the channel: the call's result is that of the remaining
    iterations, the failure shows only as a [Warning] line, and no line
    of [Next] is at the [Error] level. *)
Theorem Next_lock_failure_continues pick done count job (ch : list JobRef) (d d1 : D) e :
  done && pick (S count) = false →
  Lock job d = (Some e, d1) →
  Next_loop pick done count (job :: ch) d =
    (let '(r, s, t) := Next_loop pick done (S count) ch d1 in
     (r, s,
      CallLock job (Some e) :: Logged {| level := Warning; message := MsgError e |} :: t))
  ∧ ∀ l, Logged l ∈ (Next_loop pick done count (job :: ch) d).2 → level l ≠ Error.
Proof.
  intros Hsel HL. split.
  - simpl. rewrite Hsel, HL.
    destruct (Next_loop pick done (S count) ch d1) as [[r s] t]. reflexivity.
  - intros l Hin Herr.
    destruct (Next_loop_levels _ _ _ _ _ _ Hin) as [Hl | [Hl | Hl]];
      rewrite Hl in Herr; discriminate.
Qed.

(** What [Next] does keep of cancellation: when the [select] takes the
    [ctx.Done()] case, which it must when the context is canceled and no
    candidate is buffered, [Next] returns nil at once, with no driver
    call; a canceled call never stays blocked; and with a driver whose
    [Get] yields a job whenever it reports no error, [Next] returns nil
    only when the context is canceled. *)
Theorem Next_cancellation {R} (q : remoteUnordered D R) pick done :
  (done = true → channel (base q) = [] ∨ pick 1 = true →
   Next q pick done = (Returned None, q, []))
  ∧ (done = true → (Next q pick done).1.1 ≠ Blocked)
  ∧ ((∀ id (d0 : D), (Get id d0).1 ≠ (None, None)) →
     ∀ q' t, Next q pick done = (Returned None, q', t) → done = true).
Proof.
  split; [| split].
  - intros -> Hsel. unfold Next.
    rewrite (Next_loop_done pick 0 _ _ Hsel).
    destruct q as [[ch d r]]. reflexivity.
  - intros ->. unfold Next.
    pose proof (Next_loop_canceled_not_blocked pick (channel (base q)) 0 (driver (base q))) as Hb.
    destruct (Next_loop pick true 0 (channel (base q)) (driver (base q))) as [[r [ch d]] t].
    exact Hb.
  - intros Hget q' t. unfold Next.
    destruct (Next_loop pick done 0 (channel (base q)) (driver (base q)))
      as [[r [ch d]] t0] eqn:HL.
    intros [= -> _ _].
    exact (Next_loop_nil_canceled pick done _ Hget _ _ _ _ HL).
Qed.

(** C5: a job that [Next] hands out is the one [Driver.Get] returned for
    the ID of a candidate taken from the channel, fetched right after
    that candidate's [Lock] succeeded; the driver is left exactly as that
    [Get] left it, and the call's last driver calls are that [Lock] and
    that [Get], so no [Unlock] follows the [Lock]. *)
Theorem Next_dispatches_rehydrated_job {R} (q q' : remoteUnordered D R) pick done j t :
  Next q pick done = (Returned (Some j), q', t) →
  ∃ skipped c d0 d1 pre n,
    channel (base q) = skipped ++ Some c :: channel (base q') ∧
    Lock (Some c) d0 = (None, d1) ∧
    Get (ID c) d1 = (Some j, None, driver (base q')) ∧
    t = pre ++ [CallLock (Some c) None; CallGet (ID c) (Some j) None; dispatchLine n].
Proof.
  unfold Next. intros HN.
  destruct (Next_loop pick done 0 (channel (base q)) (driver (base q)))
    as [[r [ch d]] t0] eqn:HL.
  injection HN as -> <- ->.
  exact (Next_loop_dispatch _ _ _ _ _ _ _ _ _ HL).
Qed.

(** C8: [NewRemoteUnordered] returns a queue, never nil, for every size;
    when [SetRunner] fails, the queue is returned all the same and the
    error goes to the log, at the [Error] level, and nowhere else. *)
Theorem NewRemoteUnordered_never_nil {R} (newRemoteBase : remoteBase D R)
    (NewLocalWorkers : Z → remoteUnordered D R → R)
    (SetRunner : remoteUnordered D R → R → option error * remoteUnordered D R) (size : Z) :
  (∃ q, (NewRemoteUnordered newRemoteBase NewLocalWorkers SetRunner size).1 = Some q)
  ∧ ∀ e q1,
      SetRunner {| base := newRemoteBase |}
        (NewLocalWorkers size {| base := newRemoteBase |}) = (Some e, q1) →
      NewRemoteUnordered newRemoteBase NewLocalWorkers SetRunner size =
        (Some q1,
         [{| level := Error; message := MsgError e |};
          {| level := Info;
             message := MsgFormat "creating new remote job queue with %d workers"
                          [size] [] |}]).
Proof.
  unfold NewRemoteUnordered. split.
  - destruct (SetRunner _ _) as [err q1]. eauto.
  - intros e q1 ->. reflexivity.
Qed.

End NextTheorems.

Section NextOnSamples.
Import Go grip amboy queue mem.

(** C1, counterexample: the candidate was queued before its job was
    completed; [Lock] and [Get] succeed and [Next] returns the job, whose
    [Completed] flag is set. *)
Lemma Next_returns_completed_job :
  (Next staleQueue (fun _ => false) false).1.1 = Returned (Some (job "A" true 1))
  ∧ Completed (Status (job "A" true 1)) = true.
Proof. split; vm_compute; reflexivity. Qed.

Lemma Next_completed_as_driver_reports_witness :
  Completed (Status (job "A" false 3)) = false.
Proof.
  apply (Next_completed_as_driver_reports refreshedQueue
           (Next refreshedQueue (fun _ => false) false).1.2
           (fun _ => false) false (job "A" false 3)
           (Next refreshedQueue (fun _ => false) false).2).
  - vm_compute. reflexivity.
  - intros id j' e Hin. vm_compute in Hin.
    repeat (apply elem_of_cons in Hin as [Hin | Hin]; [by simplify_eq |]).
    inversion Hin.
Defined.

(** C2: the candidate's job is missing from the store.  [Lock] succeeds,
    [Get] fails and returns no job, and [Unlock] is called with that nil
    result instead of the candidate: the lock on "A" is still held when
    the loop goes back to waiting. *)
Theorem Next_get_failure_leaves_lock_held :
  Next orphanQueue (fun _ => false) false =
    (Blocked, queueOf [] [] ["A"],
     [CallLock (Some (job "A" false 0)) None;
      CallGet "A" None (Some (ErrNew "NotFound"));
      CallUnlock None (Some (ErrNew "Unlock: nil job"));
      Logged {| level := Notice; message := MsgError (ErrNew "Unlock: nil job") |};
      Logged {| level := Warning; message := MsgError (ErrNew "NotFound") |}])
  ∧ "A" ∈ locks (driver (base (Next orphanQueue (fun _ => false) false).1.2)).
Proof.
  split; [vm_compute; reflexivity |].
  apply (bool_decide_unpack _). vm_compute. exact I.
Qed.

Lemma Next_lock_failure_continues_witness :
  Next_loop (fun _ => false) false 0
    [Some (job "A" false 0); Some (job "B" false 0)] (driver (base contendedQueue)) =
    (let '(r, s, t) :=
       Next_loop (fun _ => false) false 1 [Some (job "B" false 0)]
         (driver (base contendedQueue)) in
     (r, s,
      CallLock (Some (job "A" false 0)) (Some (ErrNew "AlreadyLocked"))
        :: Logged {| level := Warning; message := MsgError (ErrNew "AlreadyLocked") |}
        :: t))
  ∧ ∀ l, Logged l ∈ (Next_loop (fun _ => false) false 0
                       [Some (job "A" false 0); Some (job "B" false 0)]
                       (driver (base contendedQueue))).2 → level l ≠ Error.
Proof.
  apply Next_lock_failure_continues; vm_compute; reflexivity.
Defined.

(** C4: the context is canceled while a candidate is buffered and the
    [select] takes the receive case; [Next] locks the candidate, fetches
    it and returns the job, where its own comment says it returns a nil
    job when the context is canceled. *)
Lemma Next_canceled_returns_job :
  (Next readyQueue (fun _ => false) true).1.1 = Returned (Some (job "A" false 0)).
Proof. vm_compute. reflexivity. Qed.

Lemma Next_cancellation_witness :
  Next (queueOf [] [job "A" false 0] []) (fun _ => false) true =
    (Returned None, queueOf [] [job "A" false 0] [], [])
  ∧ (Next readyQueue (fun _ => false) true).1.1 ≠ Blocked
  ∧ true = true.
Proof.
  pose proof (Next_cancellation (queueOf [] [job "A" false 0] []) (fun _ => false) true)
    as (H1 & _ & H3).
  pose proof (Next_cancellation readyQueue (fun _ => false) true) as (_ & H2 & _).
  split; [| split].
  - apply H1; [reflexivity | left; reflexivity].
  - apply H2. reflexivity.
  - apply (H3 (fun id d0 => ltac:(simpl; unfold memGet;
                                   destruct (store d0 !! id); discriminate))
              (queueOf [] [job "A" false 0] []) []).
    vm_compute. reflexivity.
Defined.

Lemma Next_dispatches_rehydrated_job_witness :
  ∃ skipped c d0 d1 pre n,
    channel (base refreshedQueue) =
      skipped ++ Some c :: channel (base (Next refreshedQueue (fun _ => false) false).1.2) ∧
    Lock (Some c) d0 = (None, d1) ∧
    Get (ID c) d1 =
      (Some (job "A" false 3), None,
       driver (base (Next refreshedQueue (fun _ => false) false).1.2)) ∧
    (Next refreshedQueue (fun _ => false) false).2 =
      pre ++ [CallLock (Some c) None; CallGet (ID c) (Some (job "A" false 3)) None;
              dispatchLine n].
Proof.
  apply (Next_dispatches_rehydrated_job refreshedQueue _ (fun _ => false) false).
  vm_compute. reflexivity.
Defined.

Lemma NewRemoteUnordered_never_nil_witness :
  NewRemoteUnordered (base readyQueue) (fun _ _ => tt)
    (fun q _ => (Some (ErrNew "runner already set"), q)) 4 =
    (Some readyQueue,
     [{| level := Error; message := MsgError (ErrNew "runner already set") |};
      {| level := Info;
         message := MsgFormat "creating new remote job queue with %d workers" [4%Z] [] |}]).
Proof.
  apply (proj2 (NewRemoteUnordered_never_nil (base readyQueue) (fun _ _ => tt)
                  (fun q _ => (Some (ErrNew "runner already set"), q)) 4)).
  reflexivity.
Defined.

End NextOnSamples.

(** ** The file utilities *)

Section FileUtilTheorems.
Import Go os filepath io jasper.
Context {F : Type} `{FileSystem F} `{FilePath}.

(** C7 (as amended): [MakeEnclosingDirectories] returns nil when the path
    is absent and [MkdirAll] creates it, or when it is a directory
    already (nothing is touched then); it returns [MkdirAll]'s error as
    it is when the creation fails, and a new "already exists and is
    not a directory" error when the path exists and is no directory.
    [WriteFile] returns that failure wrapped in "problem making enclosing
    directories" when the enclosing directories cannot be made;
    otherwise it creates the file and copies the reader's bytes into it,
    returning nil when both succeed and the error of [os.Create] or of
    the copy, not wrapped, when one fails. *)
Theorem file_utilities_results (path : string) (reader : Reader) (fs : F) :
  (∀ info err fs1,
     Stat path fs = (info, err) → IsNotExist err = true →
     MkdirAll path (Z.lor ModeDir ModePerm) fs = (None, fs1) →
     (MakeEnclosingDirectories path fs).1 = Ret (None, fs1))
  ∧ (∀ info err e fs1,
       Stat path fs = (info, err) → IsNotExist err = true →
       MkdirAll path (Z.lor ModeDir ModePerm) fs = (Some e, fs1) →
       (MakeEnclosingDirectories path fs).1 = Ret (Some e, fs1))
  ∧ (∀ i err,
       Stat path fs = (Some i, err) → IsNotExist err = false → IsDir i = true →
       MakeEnclosingDirectories path fs =
         (Ret (None, fs), [CallStat path (Some i) err]))
  ∧ (∀ i err,
       Stat path fs = (Some i, err) → IsNotExist err = false → IsDir i = false →
       MakeEnclosingDirectories path fs =
         (Ret (Some (ErrNew ("'" +:+ path +:+ "' already exists and is not a directory")),
               fs),
          [CallStat path (Some i) err]))
  ∧ (∀ e fs1,
       (MakeEnclosingDirectories (Dir path) fs).1 = Ret (Some e, fs1) →
       (WriteFile reader path fs).1 =
         Ret (Some (ErrWrap e "problem making enclosing directories"), fs1))
  ∧ (∀ fs1 e fs2,
       (MakeEnclosingDirectories (Dir path) fs).1 = Ret (None, fs1) →
       Create path fs1 = (Some e, fs2) →
       (WriteFile reader path fs).1 = Ret (Some e, fs2))
  ∧ (∀ fs1 fs2 werr fs3,
       (MakeEnclosingDirectories (Dir path) fs).1 = Ret (None, fs1) →
       Create path fs1 = (None, fs2) →
       Write path (data reader) fs2 = (werr, fs3) →
       (WriteFile reader path fs).1 =
         Ret (match werr with Some e => Some e | None => readErr reader end, fs3)).
Proof.
  repeat apply conj.
  - intros info err fs1 HS HN HM. unfold MakeEnclosingDirectories.
    rewrite HS, HN, HM. reflexivity.
  - intros info err e fs1 HS HN HM. unfold MakeEnclosingDirectories.
    rewrite HS, HN, HM. reflexivity.
  - intros i err HS HN HD. unfold MakeEnclosingDirectories.
    rewrite HS, HN, HD. reflexivity.
  - intros i err HS HN HD. unfold MakeEnclosingDirectories.
    rewrite HS, HN, HD. reflexivity.
  - intros e fs1 HM. unfold WriteFile.
    destruct (MakeEnclosingDirectories (Dir path) fs) as [o t].
    simpl in HM. subst o. reflexivity.
  - intros fs1 e fs2 HM HC. unfold WriteFile.
    destruct (MakeEnclosingDirectories (Dir path) fs) as [o t].
    simpl in HM. subst o. rewrite HC. reflexivity.
  - intros fs1 fs2 werr fs3 HM HC HW. unfold WriteFile, Copy.
    destruct (MakeEnclosingDirectories (Dir path) fs) as [o t].
    simpl in HM. subst o. rewrite HC, HW.
    destruct werr as [e |]; [reflexivity |].
    destruct (readErr reader); reflexivity.
Qed.

End FileUtilTheorems.

Section FileUtilOnSamples.
Import Go os filepath io jasper mem.

(** C7, counterexample: the target path is a directory.  Its enclosing
    directory exists, so nothing fails there; [os.Create] fails and
    [WriteFile] returns that error as it is, not wrapped, and writes
    nothing. *)
Lemma WriteFile_create_failure_unwrapped :
  (MakeEnclosingDirectories (Dir "/data") dataTree).1 = Ret (None, dataTree)
  ∧ (WriteFile hello "/data" dataTree).1 =
      Ret (Some (ErrPath "open" "/data" EISDIR), dataTree).
Proof. split; vm_compute; reflexivity. Qed.

Lemma file_utilities_results_witness :
  (MakeEnclosingDirectories "/srv/www" dataTree).1 =
    Ret (None, <["/srv/www" := NDir true]> (<["/srv" := NDir true]> dataTree))
  ∧ (MakeEnclosingDirectories "/ro/cache" dataTree).1 =
      Ret (Some (ErrPath "mkdir" "/ro/cache" EACCES), dataTree)
  ∧ MakeEnclosingDirectories "/etc" dataTree =
      (Ret (None, dataTree), [CallStat "/etc" (Some {| IsDir := true |}) None])
  ∧ MakeEnclosingDirectories "/etc/hosts" dataTree =
      (Ret (Some (ErrNew "'/etc/hosts' already exists and is not a directory"), dataTree),
       [CallStat "/etc/hosts" (Some {| IsDir := false |}) None])
  ∧ (WriteFile hello "/etc/hosts/x" dataTree).1 =
      Ret (Some (ErrWrap (ErrNew "'/etc/hosts' already exists and is not a directory")
                   "problem making enclosing directories"), dataTree)
  ∧ (WriteFile hello "/data" dataTree).1 =
      Ret (Some (ErrPath "open" "/data" EISDIR), dataTree)
  ∧ (WriteFile hello "/data/greeting" dataTree).1 =
      Ret (None, <["/data/greeting" := NFile [Byte.x68; Byte.x69]]> dataTree).
Proof.
  repeat apply conj.
  - eapply (proj1 (file_utilities_results "/srv/www" hello dataTree));
      vm_compute; reflexivity.
  - eapply (proj1 (proj2 (file_utilities_results "/ro/cache" hello dataTree)));
      vm_compute; reflexivity.
  - eapply (proj1 (proj2 (proj2 (file_utilities_results "/etc" hello dataTree))));
      vm_compute; reflexivity.
  - eapply (proj1 (proj2 (proj2 (proj2
              (file_utilities_results "/etc/hosts" hello dataTree)))));
      vm_compute; reflexivity.
  - eapply (proj1 (proj2 (proj2 (proj2 (proj2
              (file_utilities_results "/etc/hosts/x" hello dataTree))))));
      vm_compute; reflexivity.
  - eapply (proj1 (proj2 (proj2 (proj2 (proj2 (proj2
              (file_utilities_results "/data" hello dataTree)))))));
      vm_compute; reflexivity.
  - pose proof (proj2 (proj2 (proj2 (proj2 (proj2 (proj2
              (file_utilities_results "/data/greeting" hello dataTree)))))))
      as Hw.
    specialize (Hw dataTree (<["/data/greeting" := NFile []]> dataTree) None
                  (<["/data/greeting" := NFile [Byte.x68; Byte.x69]]> dataTree)).
    apply Hw; vm_compute; reflexivity.
Defined.

(** A path below a file: [Stat] fails, but not with "does not exist",
    and the [info] it returned is nil. *)
Example MakeEnclosingDirectories_below_a_file :
  MakeEnclosingDirectories "/etc/hosts/x" dataTree =
    (Panic, [CallStat "/etc/hosts/x" None (Some (ErrPath "stat" "/etc/hosts/x" ENOTDIR))]).
Proof. vm_compute. reflexivity. Qed.

End FileUtilOnSamples.

(** ** The DEB repository job *)

Section RepoLemmas.
Import Go grip os filepath gzip repobuilder.
Context {RepositoryConfig MongoDBVersion : Type}.
Context {F : Type} `{FileSystem F} `{FilePath} `{Gzip}.

(** [gzipAndWriteToFile] calls no [Stat]; it reports an error exactly
    when one of its events failed, and then exactly one did. *)
Lemma gzipAndWriteToFile_failures fileName content (fs fs1 : F) err tg :
  gzipAndWriteToFile fileName content fs = (err, fs1, tg) →
  statPaths tg = []
  ∧ length (failures tg) = length (Add NewCatcher err).
Proof.
  unfold gzipAndWriteToFile.
  destruct (run BestCompression content) as [e | e | e | out] eqn:Hrun;
    try (intros [= <- <- <-]; split; reflexivity).
  destruct (WriteFile fileName out perm0644 fs) as [werr fs2].
  destruct werr as [e |]; intros [= <- <- <-]; split; reflexivity.
Qed.

(** Every write of [gzipAndWriteToFile] goes to the file it was given. *)
Lemma gzipAndWriteToFile_writes fileName content (fs fs1 : F) err tg e c :
  gzipAndWriteToFile fileName content fs = (err, fs1, tg) →
  e ∈ tg → writeOf e = Some c → callPath c = fileName.
Proof.
  unfold gzipAndWriteToFile.
  destruct (run BestCompression content) as [e0 | e0 | e0 | out].
  1-3: intros [= <- <- <-] Hin; apply list_elem_of_singleton in Hin as ->; discriminate.
  destruct (WriteFile fileName out perm0644 fs) as [werr fs2].
  destruct werr as [e0 |]; intros [= <- <- <-] Hin Hw; simpl in Hin;
    repeat (apply elem_of_cons in Hin as [-> | Hin];
            [simpl in Hw; try discriminate; injection Hw as <-; reflexivity |]);
    inversion Hin.
Qed.

Lemma Add_app (c : Catcher) err : Add c err = c ++ Add NewCatcher err.
Proof. destruct err; simpl; [reflexivity | rewrite app_nil_r; reflexivity]. Qed.

(** The loop stats every architecture's directory, in order, whatever
    fails on the way; it only appends to the catcher, one error for each
    failed event. *)
Lemma createArchDirs_loop_catcher basePath (archs : list string) :
  ∀ (c0 : Catcher) (fs : F) c fs' t,
    createArchDirs_loop archs basePath c0 fs = (c, fs', t) →
    statPaths t = map (archPath basePath) archs
    ∧ ∃ new, c = c0 ++ new ∧ length new = length (failures t).
Proof.
  induction archs as [| arch rest IH]; intros c0 fs c fs' t; simpl.
  - intros [= <- <- <-]. split; [reflexivity |].
    exists []. rewrite app_nil_r. split; reflexivity.
  - destruct (Stat (archPath basePath arch) fs) as [info err].
    destruct (IsNotExist err).
    + destruct (MkdirAll (archPath basePath arch) perm0755 fs) as [err1 fs1].
      destruct err1 as [e1 |].
      * destruct (createArchDirs_loop rest basePath (Add c0 (Some e1)) fs1)
          as [[c1 fs1'] t1] eqn:HL.
        intros [= <- <- <-].
        destruct (IH _ _ _ _ _ HL) as (Hs & new & -> & Hlen).
        split; [simpl; f_equal; exact Hs |].
        exists (e1 :: new). simpl. rewrite <- app_assoc.
        split; [reflexivity |]. simpl. f_equal. exact Hlen.
      * destruct (WriteFile (Join [archPath basePath arch; "Packages"]) []
                    perm0644 fs1) as [err2 fs2].
        destruct err2 as [e2 |].
        -- destruct (createArchDirs_loop rest basePath (Add c0 (Some e2)) fs2)
             as [[c1 fs1'] t1] eqn:HL.
           intros [= <- <- <-].
           destruct (IH _ _ _ _ _ HL) as (Hs & new & -> & Hlen).
           split; [simpl; f_equal; exact Hs |].
           exists (e2 :: new). simpl. rewrite <- app_assoc.
           split; [reflexivity |]. simpl. f_equal. exact Hlen.
        -- destruct (gzipAndWriteToFile (Join [archPath basePath arch; "Packages.gz"])
                       [] fs2) as [[err3 fs3] tg] eqn:HG.
           destruct (createArchDirs_loop rest basePath (Add c0 err3) fs3)
             as [[c1 fs1'] t1] eqn:HL.
           intros [= <- <- <-].
           destruct (IH _ _ _ _ _ HL) as (Hs & new & -> & Hlen).
           destruct (gzipAndWriteToFile_failures _ _ _ _ _ _ HG) as (Hgs & Hgf).
           split.
           ++ unfold statPaths in *. simpl. rewrite omap_app, Hgs, Hs. reflexivity.
           ++ exists (Add NewCatcher err3 ++ new).
              rewrite (Add_app c0), <- app_assoc. split; [reflexivity |].
              unfold failures in *. simpl.
              rewrite List.filter_app, !length_app, Hgf, Hlen. reflexivity.
    + destruct (createArchDirs_loop rest basePath c0 fs) as [[c1 fs1'] t1] eqn:HL.
      intros [= <- <- <-].
      destruct (IH _ _ _ _ _ HL) as (Hs & new & -> & Hlen).
      split; [simpl; f_equal; exact Hs |].
      exists new. split; [reflexivity | exact Hlen].
Qed.

(** Every call of the loop that can change the file system is given the
    directory of a listed architecture, or its Packages or Packages.gz
    file, and [Stat] reported that directory as not existing. *)
Lemma createArchDirs_loop_writes basePath (archs : list string) :
  ∀ (c0 : Catcher) (fs : F) e c,
    e ∈ (createArchDirs_loop archs basePath c0 fs).2 → writeOf e = Some c →
    ∃ arch info err,
      arch ∈ archs ∧
      Sys (CallStat (archPath basePath arch) info err)
        ∈ (createArchDirs_loop archs basePath c0 fs).2 ∧
      IsNotExist err = true ∧
      callPath c ∈ [archPath basePath arch;
                    Join [archPath basePath arch; "Packages"];
                    Join [archPath basePath arch; "Packages.gz"]].
Proof.
  induction archs as [| arch rest IH]; intros c0 fs e c; simpl.
  { intros Hin. inversion Hin. }
  assert (Hrest : ∀ c1 fs1 (t0 : list Event),
    e ∈ (createArchDirs_loop rest basePath c1 fs1).2 → writeOf e = Some c →
    ∃ arch0 info err,
      arch0 ∈ arch :: rest ∧
      Sys (CallStat (archPath basePath arch0) info err)
        ∈ t0 ++ (createArchDirs_loop rest basePath c1 fs1).2 ∧
      IsNotExist err = true ∧
      callPath c ∈ [archPath basePath arch0;
                    Join [archPath basePath arch0; "Packages"];
                    Join [archPath basePath arch0; "Packages.gz"]]).
  { intros c1 fs1 t0 Hin Hw.
    destruct (IH _ _ _ _ Hin Hw) as (a & info & err & Ha & Hst & Hne & Hp).
    exists a, info, err. rewrite elem_of_cons, elem_of_app. auto. }
  destruct (Stat (archPath basePath arch) fs) as [info err].
  destruct (IsNotExist err) eqn:Hne.
  - assert (Hhere : ∀ (t : list Event),
      callPath c ∈ [archPath basePath arch;
                    Join [archPath basePath arch; "Packages"];
                    Join [archPath basePath arch; "Packages.gz"]] →
      ∃ arch0 info0 err0,
        arch0 ∈ arch :: rest ∧
        Sys (CallStat (archPath basePath arch0) info0 err0)
          ∈ Sys (CallStat (archPath basePath arch) info err) :: t ∧
        IsNotExist err0 = true ∧
        callPath c ∈ [archPath basePath arch0;
                      Join [archPath basePath arch0; "Packages"];
                      Join [archPath basePath arch0; "Packages.gz"]]).
    { intros t Hp. exists arch, info, err.
      exact (conj (list_elem_of_here _ _) (conj (list_elem_of_here _ _) (conj Hne Hp))). }
    destruct (MkdirAll (archPath basePath arch) perm0755 fs) as [err1 fs1].
    destruct err1 as [e1 |].
    + destruct (createArchDirs_loop rest basePath (Add c0 (Some e1)) fs1)
        as [[c1 fs1'] t1] eqn:HL.
      simpl. intros Hin Hw.
      apply elem_of_cons in Hin as [-> | Hin]; [discriminate |].
      apply elem_of_cons in Hin as [-> | Hin].
      * injection Hw as <-. apply Hhere. simpl. rewrite !elem_of_cons. auto.
      * specialize (Hrest (Add c0 (Some e1)) fs1
                      [Sys (CallStat (archPath basePath arch) info err);
                       Sys (CallMkdirAll (archPath basePath arch) perm0755 (Some e1))]).
        rewrite HL in Hrest. exact (Hrest Hin Hw).
    + destruct (WriteFile (Join [archPath basePath arch; "Packages"]) []
                  perm0644 fs1) as [err2 fs2].
      destruct err2 as [e2 |].
      * destruct (createArchDirs_loop rest basePath (Add c0 (Some e2)) fs2)
          as [[c1 fs1'] t1] eqn:HL.
        simpl. intros Hin Hw.
        apply elem_of_cons in Hin as [-> | Hin]; [discriminate |].
        apply elem_of_cons in Hin as [-> | Hin].
        { injection Hw as <-. apply Hhere. simpl. rewrite !elem_of_cons. auto. }
        apply elem_of_cons in Hin as [-> | Hin].
        { injection Hw as <-. apply Hhere. simpl. rewrite !elem_of_cons. auto. }
        specialize (Hrest (Add c0 (Some e2)) fs2
                      [Sys (CallStat (archPath basePath arch) info err);
                       Sys (CallMkdirAll (archPath basePath arch) perm0755 None);
                       Sys (CallWriteFile (Join [archPath basePath arch; "Packages"])
                              [] perm0644 (Some e2))]).
        rewrite HL in Hrest. exact (Hrest Hin Hw).
      * destruct (gzipAndWriteToFile (Join [archPath basePath arch; "Packages.gz"])
                    [] fs2) as [[err3 fs3] tg] eqn:HG.
        destruct (createArchDirs_loop rest basePath (Add c0 err3) fs3)
          as [[c1 fs1'] t1] eqn:HL.
        simpl. intros Hin Hw.
        apply elem_of_cons in Hin as [-> | Hin]; [discriminate |].
        apply elem_of_cons in Hin as [-> | Hin].
        { injection Hw as <-. apply Hhere. simpl. rewrite !elem_of_cons. auto. }
        apply elem_of_cons in Hin as [-> | Hin].
        { injection Hw as <-. apply Hhere. simpl. rewrite !elem_of_cons. auto. }
        apply elem_of_app in Hin as [Hin | Hin].
        { apply Hhere.
          rewrite (gzipAndWriteToFile_writes _ _ _ _ _ _ _ _ HG Hin Hw).
          rewrite !elem_of_cons. auto. }
        specialize (Hrest (Add c0 err3) fs3
                      (Sys (CallStat (archPath basePath arch) info err)
                       :: Sys (CallMkdirAll (archPath basePath arch) perm0755 None)
                       :: Sys (CallWriteFile (Join [archPath basePath arch; "Packages"])
                              [] perm0644 None) :: tg)).
        rewrite HL in Hrest. simpl in Hrest. exact (Hrest Hin Hw).
  - destruct (createArchDirs_loop rest basePath c0 fs) as [[c1 fs1'] t1] eqn:HL.
    simpl. intros Hin Hw.
    apply elem_of_cons in Hin as [-> | Hin]; [discriminate |].
    specialize (Hrest c0 fs [Sys (CallStat (archPath basePath arch) info err)]).
    rewrite HL in Hrest. exact (Hrest Hin Hw).
Qed.

(** When every directory is there, the loop only stats. *)
Lemma createArchDirs_loop_present basePath (archs : list string) (c0 : Catcher) (fs : F) :
  (∀ arch, arch ∈ archs → IsNotExist (Stat (archPath basePath arch) fs).2 = false) →
  createArchDirs_loop archs basePath c0 fs = (c0, fs, map (statOnly basePath fs) archs).
Proof.
  induction archs as [| arch rest IH]; intros Hall; simpl; [reflexivity |].
  pose proof (Hall arch (list_elem_of_here _ _)) as Hne.
  unfold statOnly at 1.
  destruct (Stat (archPath basePath arch) fs) as [info err]. simpl in *.
  rewrite Hne, IH; [reflexivity |].
  intros a Ha. apply Hall. apply elem_of_cons. auto.
Qed.

(** The catcher the loop leaves is the one it was given followed by the
    errors of its failed steps, in the order they happened. *)
Lemma createArchDirs_loop_records basePath (archs : list string) :
  ∀ (c0 : Catcher) (fs : F) dir,
    (createArchDirs_loop archs basePath c0 fs).1.1
    = c0 ++ recordedFrom dir (createArchDirs_loop archs basePath c0 fs).2.
Proof.
  induction archs as [| arch rest IH]; intros c0 fs dir; simpl.
  { rewrite app_nil_r. reflexivity. }
  destruct (Stat (archPath basePath arch) fs) as [info err].
  destruct (IsNotExist err).
  - destruct (MkdirAll (archPath basePath arch) perm0755 fs) as [[e1 |] fs1].
    + specialize (IH (Add c0 (Some e1)) fs1 (archPath basePath arch)).
      destruct (createArchDirs_loop rest basePath (Add c0 (Some e1)) fs1)
        as [[c1 fs1'] t1].
      simpl in *. rewrite IH, <- app_assoc. reflexivity.
    + destruct (WriteFile (Join [archPath basePath arch; "Packages"]) []
                  perm0644 fs1) as [[e2 |] fs2].
      * specialize (IH (Add c0 (Some e2)) fs2 (archPath basePath arch)).
        destruct (createArchDirs_loop rest basePath (Add c0 (Some e2)) fs2)
          as [[c1 fs1'] t1].
        simpl in *. rewrite IH, <- app_assoc. reflexivity.
      * unfold gzipAndWriteToFile.
        destruct (run BestCompression []) as [e0 | e0 | e0 | out]; simpl.
        4: destruct (WriteFile (Join [archPath basePath arch; "Packages.gz"]) out
                       perm0644 fs2) as [[e0 |] fs3]; simpl.
        all: match goal with
             | |- context [createArchDirs_loop ?r ?b ?c ?f] =>
                 specialize (IH c f (archPath basePath arch));
                 destruct (createArchDirs_loop r b c f) as [[c1 fs1'] t1]
             end;
             simpl in *; rewrite IH, <- ?app_assoc; reflexivity.
  - specialize (IH c0 fs (archPath basePath arch)).
    destruct (createArchDirs_loop rest basePath c0 fs) as [[c1 fs1'] t1].
    simpl in *. exact IH.
Qed.

End RepoLemmas.

Section RepoTheorems.
Import Go grip os filepath gzip repobuilder.
Context {RepositoryConfig MongoDBVersion : Type}.
Context {F : Type} `{FileSystem F} `{FilePath} `{Gzip}.

(** C6: [createArchDirs] stats the directory of every architecture of
    [Distro.Architectures], in order, whatever failed before.  Its
    catcher only grows: the catcher it ends with is the one it started
    with followed by the errors of the steps that failed, each as the
    step returned it (wrapped by [gzipAndWriteToFile] for the Packages.gz
    file), in the order the steps failed.  A failed [MkdirAll], a failed
    write of the Packages file or a failed [gzipAndWriteToFile] appends
    its error and the loop goes on with the next architecture.  The
    error returned is the catcher resolved, and it is nil exactly when no
    step of the whole pass failed. *)
Theorem createArchDirs_aggregates_failures
    (j : @BuildDEBRepoJob RepositoryConfig MongoDBVersion) distro basePath (fs : F) :
  Distro (Job_ j) = Some distro →
  ∃ catcher fs' t,
    createArchDirs j basePath fs = (Ret (Resolve catcher, fs'), t)
    ∧ statPaths t = map (archPath basePath) (Architectures distro)
    ∧ length catcher = length (failures t)
    ∧ (Resolve catcher = None ↔ failures t = [])
    ∧ (∀ c0 : Catcher,
         ∃ new,
           (createArchDirs_loop (Architectures distro) basePath c0 fs).1.1 = c0 ++ new
           ∧ length new =
               length (failures
                         (createArchDirs_loop (Architectures distro) basePath c0 fs).2))
    ∧ catcher = recordedErrors t
    ∧ (∀ c0 : Catcher,
         (createArchDirs_loop (Architectures distro) basePath c0 fs).1.1
         = c0 ++ recordedErrors
                   (createArchDirs_loop (Architectures distro) basePath c0 fs).2)
    ∧ (∀ arch rest (c0 : Catcher) (fs0 fs1 : F) info err e,
         Stat (archPath basePath arch) fs0 = (info, err) →
         IsNotExist err = true →
         MkdirAll (archPath basePath arch) perm0755 fs0 = (Some e, fs1) →
         createArchDirs_loop (arch :: rest) basePath c0 fs0 =
           (let '(c, fs2, t2) := createArchDirs_loop rest basePath (c0 ++ [e]) fs1 in
            (c, fs2,
             Sys (CallStat (archPath basePath arch) info err)
               :: Sys (CallMkdirAll (archPath basePath arch) perm0755 (Some e)) :: t2)))
    ∧ (∀ arch rest (c0 : Catcher) (fs0 fs1 fs2 : F) info err e,
         Stat (archPath basePath arch) fs0 = (info, err) →
         IsNotExist err = true →
         MkdirAll (archPath basePath arch) perm0755 fs0 = (None, fs1) →
         WriteFile (Join [archPath basePath arch; "Packages"]) [] perm0644 fs1
           = (Some e, fs2) →
         createArchDirs_loop (arch :: rest) basePath c0 fs0 =
           (let '(c, fs3, t3) := createArchDirs_loop rest basePath (c0 ++ [e]) fs2 in
            (c, fs3,
             Sys (CallStat (archPath basePath arch) info err)
               :: Sys (CallMkdirAll (archPath basePath arch) perm0755 None)
               :: Sys (CallWriteFile (Join [archPath basePath arch; "Packages"]) []
                         perm0644 (Some e)) :: t3)))
    ∧ (∀ arch rest (c0 : Catcher) (fs0 fs1 fs2 fs3 : F) info err e tg,
         Stat (archPath basePath arch) fs0 = (info, err) →
         IsNotExist err = true →
         MkdirAll (archPath basePath arch) perm0755 fs0 = (None, fs1) →
         WriteFile (Join [archPath basePath arch; "Packages"]) [] perm0644 fs1
           = (None, fs2) →
         gzipAndWriteToFile (Join [archPath basePath arch; "Packages.gz"]) [] fs2
           = (Some e, fs3, tg) →
         createArchDirs_loop (arch :: rest) basePath c0 fs0 =
           (let '(c, fs4, t4) := createArchDirs_loop rest basePath (c0 ++ [e]) fs3 in
            (c, fs4,
             Sys (CallStat (archPath basePath arch) info err)
               :: Sys (CallMkdirAll (archPath basePath arch) perm0755 None)
               :: Sys (CallWriteFile (Join [archPath basePath arch; "Packages"]) []
                         perm0644 None) :: tg ++ t4))).
Proof.
  intros HD. unfold createArchDirs. rewrite HD.
  pose proof (createArchDirs_loop_records basePath (Architectures distro)
                NewCatcher fs EmptyString) as Hrec.
  destruct (createArchDirs_loop (Architectures distro) basePath NewCatcher fs)
    as [[c fs'] t] eqn:HL.
  exists c, fs', t.
  destruct (createArchDirs_loop_catcher _ _ _ _ _ _ _ HL) as (Hs & new & -> & Hlen).
  simpl in *.
  split; [reflexivity |]. split; [exact Hs |]. split; [exact Hlen |].
  split; [| split; [| split; [exact Hrec | split; [| split; [| split]]]]].
  - unfold Resolve. split.
    + intros HR. destruct new; [| discriminate HR].
      destruct (failures t); [reflexivity | discriminate Hlen].
    + intros Hf. rewrite Hf in Hlen. destruct new; [reflexivity | discriminate Hlen].
  - intros c0.
    destruct (createArchDirs_loop (Architectures distro) basePath c0 fs)
      as [[c1 fs1] t1] eqn:HL1.
    destruct (createArchDirs_loop_catcher _ _ _ _ _ _ _ HL1) as (_ & new1 & -> & Hlen1).
    exists new1. split; [reflexivity | exact Hlen1].
  - intros c0. apply createArchDirs_loop_records.
  - intros arch rest c0 fs0 fs1 info err e HS Hne HM.
    simpl. rewrite HS, Hne, HM. reflexivity.
  - intros arch rest c0 fs0 fs1 fs2 info err e HS Hne HM HW.
    simpl. rewrite HS, Hne, HM, HW. reflexivity.
  - intros arch rest c0 fs0 fs1 fs2 fs3 info err e tg HS Hne HM HW HG.
    simpl. rewrite HS, Hne, HM, HW, HG. reflexivity.
Qed.

(** C9: the job [NewBuildDEBRepo] constructs has [Arch] "amd64" for the
    input "x86_64", "ppc64el" for "ppc64le", and the input itself for
    every other string. *)
Theorem NewBuildDEBRepo_normalizes_arch
    (NewMongoDBVersion : string → option MongoDBVersion * option error)
    (Getwd : string * option error) (GetNumber : Z)
    (buildRepoJob : @Job RepositoryConfig MongoDBVersion)
    conf distro version arch profile pkgs
    (r : @BuildDEBRepoJob RepositoryConfig MongoDBVersion) err log :
  NewBuildDEBRepo NewMongoDBVersion Getwd GetNumber buildRepoJob
    conf distro version arch profile pkgs = ((Some r, err), log) →
  (arch = "x86_64" → Arch (Job_ r) = "amd64")
  ∧ (arch = "ppc64le" → Arch (Job_ r) = "ppc64el")
  ∧ (arch ≠ "x86_64" → arch ≠ "ppc64le" → Arch (Job_ r) = arch).
Proof.
  unfold NewBuildDEBRepo.
  destruct (NewMongoDBVersion version) as [rel [e |]]; [discriminate |].
  destruct Getwd as [wd [e |]]; [discriminate |].
  intros [= <- _ _]. simpl.
  split; [| split].
  - intros ->. reflexivity.
  - intros ->. reflexivity.
  - intros Hx Hp.
    apply String.eqb_neq in Hx, Hp. rewrite Hx, Hp. reflexivity.
Qed.

(** C10: [createArchDirs] writes nothing for a directory that is there.
    When every architecture's directory is there it only stats, and
    returns nil with the file system as it was.  Every call of it that
    can change the file system is given the directory of a listed
    architecture that [Stat] reported as not existing, or that
    directory's Packages or Packages.gz file.  In the loop, an
    architecture whose directory is there costs one [Stat] and nothing
    else; one whose directory is missing gets, when nothing fails, the
    directory (mode 0755), an empty Packages file and a Packages.gz
    holding the gzip of the empty content (both mode 0644). *)
Theorem createArchDirs_leaves_existing_untouched
    (j : @BuildDEBRepoJob RepositoryConfig MongoDBVersion) distro basePath (fs : F) :
  Distro (Job_ j) = Some distro →
  ((∀ arch, arch ∈ Architectures distro →
      IsNotExist (Stat (archPath basePath arch) fs).2 = false) →
   createArchDirs j basePath fs =
     (Ret (None, fs), map (statOnly basePath fs) (Architectures distro)))
  ∧ (∀ e c,
       e ∈ (createArchDirs j basePath fs).2 → writeOf e = Some c →
       ∃ arch info err,
         arch ∈ Architectures distro ∧
         Sys (CallStat (archPath basePath arch) info err)
           ∈ (createArchDirs j basePath fs).2 ∧
         IsNotExist err = true ∧
         callPath c ∈ [archPath basePath arch;
                       Join [archPath basePath arch; "Packages"];
                       Join [archPath basePath arch; "Packages.gz"]])
  ∧ (∀ arch rest (c0 : Catcher) (fs0 : F),
       IsNotExist (Stat (archPath basePath arch) fs0).2 = false →
       createArchDirs_loop (arch :: rest) basePath c0 fs0 =
         (let '(c, fs', t) := createArchDirs_loop rest basePath c0 fs0 in
          (c, fs', statOnly basePath fs0 arch :: t)))
  ∧ (∀ arch rest (c0 : Catcher) (fs0 fs1 fs2 fs3 : F) info err out,
       Stat (archPath basePath arch) fs0 = (info, err) →
       IsNotExist err = true →
       MkdirAll (archPath basePath arch) perm0755 fs0 = (None, fs1) →
       WriteFile (Join [archPath basePath arch; "Packages"]) [] perm0644 fs1
         = (None, fs2) →
       run BestCompression [] = Compressed out →
       WriteFile (Join [archPath basePath arch; "Packages.gz"]) out perm0644 fs2
         = (None, fs3) →
       createArchDirs_loop (arch :: rest) basePath c0 fs0 =
         (let '(c, fs', t) := createArchDirs_loop rest basePath c0 fs3 in
          (c, fs',
           [Sys (CallStat (archPath basePath arch) info err);
            Sys (CallMkdirAll (archPath basePath arch) perm0755 None);
            Sys (CallWriteFile (Join [archPath basePath arch; "Packages"]) []
                   perm0644 None);
            Gz BestCompression [] (Compressed out);
            Sys (CallWriteFile (Join [archPath basePath arch; "Packages.gz"]) out
                   perm0644 None);
            Logged {| level := Notice;
                      message := MsgLine
                        ["wrote zipped packages file to:";
                         Join [archPath basePath arch; "Packages.gz"]] |}] ++ t))).
Proof.
  intros HD. split; [| split; [| split]].
  - intros Hall. unfold createArchDirs. rewrite HD.
    rewrite (createArchDirs_loop_present basePath _ NewCatcher fs Hall). reflexivity.
  - intros e c. unfold createArchDirs. rewrite HD.
    pose proof (createArchDirs_loop_writes basePath (Architectures distro)
                  NewCatcher fs e c) as Hw.
    destruct (createArchDirs_loop (Architectures distro) basePath NewCatcher fs)
      as [[c1 fs1] t1].
    exact Hw.
  - intros arch rest c0 fs0 Hne. simpl. unfold statOnly.
    destruct (Stat (archPath basePath arch) fs0) as [info err]. simpl in *.
    rewrite Hne. reflexivity.
  - intros arch rest c0 fs0 fs1 fs2 fs3 info err out HS Hne HM HW Hrun HW2.
    simpl. rewrite HS, Hne, HM, HW.
    unfold gzipAndWriteToFile. rewrite Hrun, HW2.
    destruct (createArchDirs_loop rest basePath (Add c0 None) fs3) as [[c fs'] t] eqn:HL.
    simpl in HL. rewrite HL. reflexivity.
Qed.

End RepoTheorems.

Section RepoOnSamples.
Import Go grip os filepath gzip repobuilder mem.

Lemma createArchDirs_aggregates_failures_witness :
  ∃ fs' t,
    createArchDirs (debJob ["amd64"; "arm64"]) "/ro" dataTree
      = (Ret (Resolve [ErrPath "mkdir" "/ro/binary-amd64" EACCES;
                       ErrPath "mkdir" "/ro/binary-arm64" EACCES], fs'), t)
    ∧ statPaths t = map (archPath "/ro") ["amd64"; "arm64"]
    ∧ recordedErrors t = [ErrPath "mkdir" "/ro/binary-amd64" EACCES;
                          ErrPath "mkdir" "/ro/binary-arm64" EACCES].
Proof.
  destruct (createArchDirs_aggregates_failures (debJob ["amd64"; "arm64"])
              {| Architectures := ["amd64"; "arm64"]; Component := "main";
                 CodeName := "stretch"; Edition := "org"; Bucket := "repo" |}
              "/ro" dataTree eq_refl)
    as (catcher & fs' & t & Heq & Hs & _ & _ & _ & Hrec & _).
  assert (Ht : t = (createArchDirs (debJob ["amd64"; "arm64"]) "/ro" dataTree).2)
    by (rewrite Heq; reflexivity).
  assert (Hc : catcher = [ErrPath "mkdir" "/ro/binary-amd64" EACCES;
                          ErrPath "mkdir" "/ro/binary-arm64" EACCES])
    by (rewrite Hrec, Ht; vm_compute; reflexivity).
  exists fs', t. rewrite Hc in Heq.
  split; [exact Heq |]. split; [exact Hs |]. rewrite <- Hrec. exact Hc.
Defined.

(** On the read-only directory both architectures fail, and both
    failures are in the error returned. *)
Example createArchDirs_read_only :
  (createArchDirs (debJob ["amd64"; "arm64"]) "/ro" dataTree).1 =
    Ret (Some (ErrNew ("mkdir /ro/binary-amd64: permission denied" +:+ newline
                        +:+ "mkdir /ro/binary-arm64: permission denied")),
         dataTree).
Proof. vm_compute. reflexivity. Qed.

Lemma NewBuildDEBRepo_normalizes_arch_witness :
  (∃ r, (newDEB "x86_64").1.1 = Some r ∧ Arch (Job_ r) = "amd64")
  ∧ (∃ r, (newDEB "ppc64le").1.1 = Some r ∧ Arch (Job_ r) = "ppc64el")
  ∧ (∃ r, (newDEB "arm64").1.1 = Some r ∧ Arch (Job_ r) = "arm64").
Proof.
  split; [| split].
  - destruct (newDEB "x86_64") as [[[r |] err] log] eqn:Hnew; [| discriminate Hnew].
    exists r. split; [reflexivity |].
    apply (proj1 (NewBuildDEBRepo_normalizes_arch _ _ _ _ _ _ _ _ _ _ _ _ _ Hnew)).
    reflexivity.
  - destruct (newDEB "ppc64le") as [[[r |] err] log] eqn:Hnew; [| discriminate Hnew].
    exists r. split; [reflexivity |].
    apply (proj1 (proj2 (NewBuildDEBRepo_normalizes_arch _ _ _ _ _ _ _ _ _ _ _ _ _ Hnew))).
    reflexivity.
  - destruct (newDEB "arm64") as [[[r |] err] log] eqn:Hnew; [| discriminate Hnew].
    exists r. split; [reflexivity |].
    apply (proj2 (proj2 (NewBuildDEBRepo_normalizes_arch _ _ _ _ _ _ _ _ _ _ _ _ _ Hnew)));
      discriminate.
Defined.

Lemma createArchDirs_leaves_existing_untouched_witness :
  createArchDirs (debJob ["amd64"]) "/repo" repoTree =
    (Ret (None, repoTree),
     [Sys (CallStat "/repo/binary-amd64" (Some {| IsDir := true |}) None)])
  ∧ (∃ arch info err,
       arch ∈ ["amd64"; "arm64"] ∧
       Sys (CallStat (archPath "/repo" arch) info err)
         ∈ (createArchDirs (debJob ["amd64"; "arm64"]) "/repo" repoTree).2 ∧
       IsNotExist err = true ∧
       "/repo/binary-arm64/Packages"
         ∈ [archPath "/repo" arch;
            Join [archPath "/repo" arch; "Packages"];
            Join [archPath "/repo" arch; "Packages.gz"]])
  ∧ createArchDirs_loop ["amd64"; "arm64"] "/repo" NewCatcher repoTree =
      (let '(c, fs', t) := createArchDirs_loop ["arm64"] "/repo" NewCatcher repoTree in
       (c, fs', statOnly "/repo" repoTree "amd64" :: t))
  ∧ createArchDirs_loop ["arm64"] "/repo" NewCatcher repoTree =
      (NewCatcher,
       <["/repo/binary-arm64/Packages.gz" := NFile [Byte.x1f; Byte.x8b]]>
         (<["/repo/binary-arm64/Packages" := NFile []]>
            (<["/repo/binary-arm64" := NDir true]> repoTree)),
       [Sys (CallStat "/repo/binary-arm64" None
               (Some (ErrPath "stat" "/repo/binary-arm64" ENOENT)));
        Sys (CallMkdirAll "/repo/binary-arm64" perm0755 None);
        Sys (CallWriteFile "/repo/binary-arm64/Packages" [] perm0644 None);
        Gz BestCompression [] (Compressed [Byte.x1f; Byte.x8b]);
        Sys (CallWriteFile "/repo/binary-arm64/Packages.gz" [Byte.x1f; Byte.x8b]
               perm0644 None);
        Logged {| level := Notice;
                  message := MsgLine ["wrote zipped packages file to:";
                                      "/repo/binary-arm64/Packages.gz"] |}]).
Proof.
  pose (distro archs :=
          {| Architectures := archs; Component := "main"; CodeName := "stretch";
             Edition := "org"; Bucket := "repo" |}).
  pose proof (createArchDirs_leaves_existing_untouched (debJob ["amd64"])
                (distro ["amd64"]) "/repo" repoTree eq_refl) as (H1 & _).
  pose proof (createArchDirs_leaves_existing_untouched (debJob ["amd64"; "arm64"])
                (distro ["amd64"; "arm64"]) "/repo" repoTree eq_refl)
    as (_ & H2 & H3 & H4).
  split; [| split; [| split]].
  - apply H1. intros arch Hin. apply list_elem_of_singleton in Hin as ->.
    vm_compute. reflexivity.
  - apply (H2 (Sys (CallWriteFile "/repo/binary-arm64/Packages" [] perm0644 None))
              (CallWriteFile "/repo/binary-arm64/Packages" [] perm0644 None)).
    + vm_compute. repeat constructor.
    + reflexivity.
  - apply H3. vm_compute. reflexivity.
  - apply (H4 "arm64" [] NewCatcher repoTree
              (<["/repo/binary-arm64" := NDir true]> repoTree)
              (<["/repo/binary-arm64/Packages" := NFile []]>
                 (<["/repo/binary-arm64" := NDir true]> repoTree))
              (<["/repo/binary-arm64/Packages.gz" := NFile [Byte.x1f; Byte.x8b]]>
                 (<["/repo/binary-arm64/Packages" := NFile []]>
                    (<["/repo/binary-arm64" := NDir true]> repoTree)))
              None (Some (ErrPath "stat" "/repo/binary-arm64" ENOENT))
              [Byte.x1f; Byte.x8b]); vm_compute; reflexivity.
Defined.

End RepoOnSamples.

(** * Further properties *)

(** ** Lists of events *)

Section Traces.
Context {A : Type}.

(** Where an element sits in a list that starts with [a]. *)
Lemma cons_eq_app_cons (a s : A) (l pre post : list A) :
  a :: l = pre ++ s :: post →
  (pre = [] ∧ a = s ∧ l = post) ∨ ∃ pre', pre = a :: pre' ∧ l = pre' ++ s :: post.
Proof.
  destruct pre as [| b pre']; simpl; intros [= -> ->]; [left | right]; eauto.
Qed.

Lemma nil_eq_app_cons (s : A) (pre post : list A) : [] = pre ++ s :: post → False.
Proof. destruct pre; discriminate. Qed.

End Traces.

Ltac peel H :=
  first
    [ apply nil_eq_app_cons in H; contradiction
    | let pre' := fresh "pre" in
      apply cons_eq_app_cons in H as [(-> & ? & ?) | (pre' & -> & H)];
      [try discriminate |] ].

Ltac in_trace :=
  solve [repeat first [apply list_elem_of_here | apply list_elem_of_further]].

(** ** [sliceContains] *)

Section SliceContains.
Import jasper.

(** X1: [sliceContains] is true exactly on the names that occur in the
    group. *)
Theorem sliceContains_elem_of (group : list string) (name : string) :
  sliceContains group name = true ↔ name ∈ group.
Proof.
  induction group as [| g rest IH]; simpl.
  - split; [discriminate | intros Hin; inversion Hin].
  - rewrite elem_of_cons. destruct (String.eqb name g) eqn:Heq.
    + apply String.eqb_eq in Heq. tauto.
    + apply String.eqb_neq in Heq. rewrite IH. tauto.
Qed.

(** X2: a name is in two groups put together exactly when it is in one
    of them. *)
Theorem sliceContains_app (g1 g2 : list string) (name : string) :
  sliceContains (g1 ++ g2) name = sliceContains g1 name || sliceContains g2 name.
Proof.
  induction g1 as [| g rest IH]; simpl; [reflexivity |].
  destruct (String.eqb name g); [reflexivity | exact IH].
Qed.

End SliceContains.

(** ** More on [Next] *)

Section NextTraces.
Import Go grip amboy queue.
Context {D : Type} `{Driver D}.

Lemma Next_loop_consumes pick done (ch : list JobRef) :
  ∀ count (d : D),
    ∃ consumed,
      ch = consumed ++ (Next_loop pick done count ch d).1.2.1
      ∧ lockCalls (Next_loop pick done count ch d).2 = consumed
      ∧ ∀ n, dispatchLine n ∈ (Next_loop pick done count ch d).2 →
             n = (count + length consumed)%nat.
Proof.
  induction ch as [| job ch IH]; intros count d; simpl.
  - exists []. destruct done; simpl; (split; [reflexivity |]); (split; [reflexivity |]);
      intros n Hin; inversion Hin.
  - destruct (done && pick (S count)).
    { exists []. simpl. split; [reflexivity |]. split; [reflexivity |].
      intros n Hin; inversion Hin. }
    destruct (Lock job d) as [err d1].
    destruct err as [e |].
    + destruct (IH (S count) d1) as (consumed & Hch & Hlk & Hn).
      destruct (Next_loop pick done (S count) ch d1) as [[r [ch' d']] t1].
      simpl in *. exists (job :: consumed).
      split; [simpl; f_equal; exact Hch |]. split; [f_equal; exact Hlk |].
      intros n Hin. rewrite !elem_of_cons in Hin.
      destruct Hin as [Hc | [Hc | Hin]]; [discriminate | discriminate |].
      rewrite (Hn n Hin). simpl. lia.
    + destruct job as [jb |].
      { destruct (Get (ID jb) d1) as [[job2 err2] d2].
        destruct err2 as [e2 |].
        - destruct (Unlock job2 d2) as [uerr d3].
          destruct (IH (S count) d3) as (consumed & Hch & Hlk & Hn).
          destruct (Next_loop pick done (S count) ch d3) as [[r [ch' d']] t1].
          simpl in *. exists (Some jb :: consumed).
          split; [simpl; f_equal; exact Hch |].
          split.
          + unfold lockCalls in *. simpl. f_equal.
            rewrite omap_app. destruct uerr; simpl; exact Hlk.
          + intros n Hin. rewrite !elem_of_cons, elem_of_app in Hin.
            destruct Hin as [Hc | [Hc | [Hc | [Hin | Hin]]]]; try discriminate.
            * destruct uerr; simpl in Hin; rewrite ?elem_of_cons in Hin;
                [destruct Hin as [Hc | [Hc | Hc]]; try discriminate; inversion Hc
                | destruct Hin as [Hc | Hc]; try discriminate; inversion Hc].
            * rewrite (Hn n Hin). simpl. lia.
        - simpl. exists [Some jb]. split; [reflexivity |]. split; [reflexivity |].
          intros n Hin. rewrite !elem_of_cons in Hin.
          destruct Hin as [Hc | [Hc | [Hc | Hc]]]; try discriminate; [| inversion Hc].
          injection Hc as Hc. simpl. lia. }
      simpl. exists [None]. split; [reflexivity |]. split; [reflexivity |].
      intros n Hin. apply list_elem_of_singleton in Hin. discriminate.
Qed.

(** X3: the candidates [Next] takes off the channel are a prefix of it,
    what is left stays in order, and [Driver.Lock] is called once on
    each candidate taken, in channel order, and on nothing else. *)
Theorem Next_locks_what_it_takes {R} (q : remoteUnordered D R) pick done :
  ∃ consumed,
    channel (base q) = consumed ++ channel (base (Next q pick done).1.2)
    ∧ lockCalls (Next q pick done).2 = consumed.
Proof.
  unfold Next.
  destruct (Next_loop_consumes pick done (channel (base q)) 0 (driver (base q)))
    as (consumed & Hch & Hlk & _).
  destruct (Next_loop pick done 0 (channel (base q)) (driver (base q)))
    as [[r [ch d]] t].
  exists consumed. split; assumption.
Qed.

(** X4: the count in the debug line of a dispatch is the number of
    candidates the call took off the channel. *)
Theorem Next_dispatch_count {R} (q : remoteUnordered D R) pick done n :
  dispatchLine n ∈ (Next q pick done).2 →
  n = length (lockCalls (Next q pick done).2)
  ∧ (length (channel (base q))
     = n + length (channel (base (Next q pick done).1.2)))%nat.
Proof.
  unfold Next.
  destruct (Next_loop_consumes pick done (channel (base q)) 0 (driver (base q)))
    as (consumed & Hch & Hlk & Hn).
  destruct (Next_loop pick done 0 (channel (base q)) (driver (base q)))
    as [[r [ch d]] t].
  simpl in *. intros Hin. rewrite (Hn n Hin), Hlk. split; [reflexivity |].
  rewrite Hch at 1. rewrite length_app. reflexivity.
Qed.

Lemma Next_loop_unlock_after_get pick done (ch : list JobRef) :
  ∀ count (d : D) pre j u post,
    (Next_loop pick done count ch d).2 = pre ++ CallUnlock j u :: post →
    ∃ pre' id e, pre = pre' ++ [CallGet id j (Some e)].
Proof.
  induction ch as [| job ch IH]; intros count d pre j u post; simpl.
  - destruct done; simpl; intros Ht; peel Ht.
  - destruct (done && pick (S count)); [simpl; intros Ht; peel Ht |].
    destruct (Lock job d) as [err d1].
    destruct err as [e |].
    + specialize (IH (S count) d1).
      destruct (Next_loop pick done (S count) ch d1) as [[r s] t1].
      simpl in *. intros Ht. do 2 peel Ht.
      destruct (IH _ _ _ _ Ht) as (pre' & id & e' & ->).
      exists (CallLock job (Some e) :: Logged {| level := Warning; message := MsgError e |}
                :: pre'), id, e'. reflexivity.
    + destruct job as [jb |]; [| simpl; intros Ht; do 2 peel Ht].
      destruct (Get (ID jb) d1) as [[job2 err2] d2].
      destruct err2 as [e2 |]; [| simpl; intros Ht; do 4 peel Ht].
      destruct (Unlock job2 d2) as [uerr d3].
      specialize (IH (S count) d3).
      destruct (Next_loop pick done (S count) ch d3) as [[r s] t1].
      simpl in *. intros Ht. do 2 peel Ht. peel Ht.
      { simplify_eq. exists [CallLock (Some jb) None], (ID jb), e2. reflexivity. }
      destruct uerr as [ue |]; simpl in Ht.
      * do 2 peel Ht.
        destruct (IH _ _ _ _ Ht) as (pre' & id & e' & ->).
        eexists (_ :: _ :: _ :: _ :: _ :: pre'), id, e'. reflexivity.
      * peel Ht.
        destruct (IH _ _ _ _ Ht) as (pre' & id & e' & ->).
        eexists (_ :: _ :: _ :: _ :: pre'), id, e'. reflexivity.
Qed.

(** X5: [Next] calls [Driver.Unlock] only right after a [Driver.Get] that
    failed, and hands it the job value that [Get] returned. *)
Theorem Next_unlock_follows_failed_get {R} (q : remoteUnordered D R) pick done
    pre j u post :
  (Next q pick done).2 = pre ++ CallUnlock j u :: post →
  ∃ pre' id e, pre = pre' ++ [CallGet id j (Some e)].
Proof.
  unfold Next.
  pose proof (Next_loop_unlock_after_get pick done (channel (base q)) 0
                (driver (base q)) pre j u post) as Hl.
  destruct (Next_loop pick done 0 (channel (base q)) (driver (base q)))
    as [[r [ch d]] t].
  exact Hl.
Qed.

Lemma Next_loop_get_after_lock pick done (ch : list JobRef) :
  ∀ count (d : D) pre id j e post,
    (Next_loop pick done count ch d).2 = pre ++ CallGet id j e :: post →
    ∃ pre' c, pre = pre' ++ [CallLock (Some c) None] ∧ id = ID c ∧ Some c ∈ ch.
Proof.
  induction ch as [| job ch IH]; intros count d pre id j e post; simpl.
  - destruct done; simpl; intros Ht; peel Ht.
  - destruct (done && pick (S count)); [simpl; intros Ht; peel Ht |].
    destruct (Lock job d) as [err d1].
    destruct err as [e0 |].
    + specialize (IH (S count) d1).
      destruct (Next_loop pick done (S count) ch d1) as [[r s] t1].
      simpl in *. intros Ht. do 2 peel Ht.
      destruct (IH _ _ _ _ _ Ht) as (pre' & c & -> & -> & Hin).
      eexists (_ :: _ :: pre'), c.
      split; [reflexivity |]. split; [reflexivity |]. apply elem_of_cons. auto.
    + destruct job as [jb |]; [| simpl; intros Ht; do 2 peel Ht].
      destruct (Get (ID jb) d1) as [[job2 err2] d2].
      destruct err2 as [e2 |].
      * destruct (Unlock job2 d2) as [uerr d3].
        specialize (IH (S count) d3).
        destruct (Next_loop pick done (S count) ch d3) as [[r s] t1].
        simpl in *. intros Ht. peel Ht. peel Ht.
        { simplify_eq. exists [], jb.
          split; [reflexivity |]. split; [reflexivity |]. apply list_elem_of_here. }
        peel Ht.
        destruct uerr as [ue |]; simpl in Ht.
        -- do 2 peel Ht.
           destruct (IH _ _ _ _ _ Ht) as (pre' & c & -> & -> & Hin).
           eexists (_ :: _ :: _ :: _ :: _ :: pre'), c.
           split; [reflexivity |]. split; [reflexivity |]. apply elem_of_cons. auto.
        -- peel Ht.
           destruct (IH _ _ _ _ _ Ht) as (pre' & c & -> & -> & Hin).
           eexists (_ :: _ :: _ :: _ :: pre'), c.
           split; [reflexivity |]. split; [reflexivity |]. apply elem_of_cons. auto.
      * simpl. intros Ht. peel Ht. peel Ht.
        { simplify_eq. exists [], jb.
          split; [reflexivity |]. split; [reflexivity |]. apply list_elem_of_here. }
        do 2 peel Ht.
Qed.

(** X6: [Next] calls [Driver.Get] only right after a [Driver.Lock] that
    succeeded, on a candidate from the channel, and with that
    candidate's ID. *)
Theorem Next_get_follows_lock {R} (q : remoteUnordered D R) pick done
    pre id j e post :
  (Next q pick done).2 = pre ++ CallGet id j e :: post →
  ∃ pre' c,
    pre = pre' ++ [CallLock (Some c) None] ∧ id = ID c ∧ Some c ∈ channel (base q).
Proof.
  unfold Next.
  pose proof (Next_loop_get_after_lock pick done (channel (base q)) 0
                (driver (base q)) pre id j e post) as Hl.
  destruct (Next_loop pick done 0 (channel (base q)) (driver (base q)))
    as [[r [ch d]] t].
  exact Hl.
Qed.

Lemma Next_loop_no_panic pick done (ch : list JobRef) :
  None ∉ ch ∨ (∀ d0 : D, (Lock None d0).1 ≠ None) →
  ∀ count (d : D), (Next_loop pick done count ch d).1.1 ≠ Panicked.
Proof.
  intros Hsafe.
  induction ch as [| job ch IH]; intros count d; simpl.
  - destruct done; discriminate.
  - assert (Hrest : None ∉ ch ∨ (∀ d0 : D, (Lock None d0).1 ≠ None)).
    { destruct Hsafe as [Hn | Hl]; [left | right; exact Hl].
      intros Hin. apply Hn. apply elem_of_cons. auto. }
    specialize (IH Hrest).
    destruct (done && pick (S count)); [discriminate |].
    destruct (Lock job d) as [err d1] eqn:HL.
    destruct err as [e |].
    + specialize (IH (S count) d1).
      destruct (Next_loop pick done (S count) ch d1) as [[r s] t1]. exact IH.
    + destruct job as [jb |].
      * destruct (Get (ID jb) d1) as [[job2 err2] d2].
        destruct err2 as [e2 |]; [| discriminate].
        destruct (Unlock job2 d2) as [uerr d3].
        specialize (IH (S count) d3).
        destruct (Next_loop pick done (S count) ch d3) as [[r s] t1]. exact IH.
      * exfalso. destruct Hsafe as [Hn | Hl].
        -- apply Hn. apply list_elem_of_here.
        -- apply (Hl d). rewrite HL. reflexivity.
Qed.

(** X7: [Next] does not panic when the channel holds no nil candidate, or
    when the driver refuses to lock nil. *)
Theorem Next_no_panic {R} (q : remoteUnordered D R) pick done :
  None ∉ channel (base q) ∨ (∀ d0 : D, (Lock None d0).1 ≠ None) →
  (Next q pick done).1.1 ≠ Panicked.
Proof.
  intros Hsafe. unfold Next.
  pose proof (Next_loop_no_panic pick done (channel (base q)) Hsafe 0 (driver (base q)))
    as Hl.
  destruct (Next_loop pick done 0 (channel (base q)) (driver (base q)))
    as [[r [ch d]] t].
  exact Hl.
Qed.

Lemma Next_loop_blocked pick done (ch : list JobRef) :
  ∀ count (d : D),
    (Next_loop pick done count ch d).1.1 = Blocked →
    done = false ∧ (Next_loop pick done count ch d).1.2.1 = [].
Proof.
  induction ch as [| job ch IH]; intros count d; simpl.
  - destruct done; [discriminate | auto].
  - destruct (done && pick (S count)); [discriminate |].
    destruct (Lock job d) as [err d1].
    destruct err as [e |].
    + specialize (IH (S count) d1).
      destruct (Next_loop pick done (S count) ch d1) as [[r [ch' d']] t1]. exact IH.
    + destruct job as [jb |]; [| discriminate].
      destruct (Get (ID jb) d1) as [[job2 err2] d2].
      destruct err2 as [e2 |]; [| discriminate].
      destruct (Unlock job2 d2) as [uerr d3].
      specialize (IH (S count) d3).
      destruct (Next_loop pick done (S count) ch d3) as [[r [ch' d']] t1]. exact IH.
Qed.

(** X8: [Next] stays blocked only with the context not canceled and the
    channel drained: every candidate was tried first. *)
Theorem Next_blocks_only_when_drained {R} (q : remoteUnordered D R) pick done :
  (Next q pick done).1.1 = Blocked →
  done = false
  ∧ channel (base (Next q pick done).1.2) = []
  ∧ lockCalls (Next q pick done).2 = channel (base q).
Proof.
  unfold Next.
  destruct (Next_loop_consumes pick done (channel (base q)) 0 (driver (base q)))
    as (consumed & Hch & Hlk & _).
  pose proof (Next_loop_blocked pick done (channel (base q)) 0 (driver (base q))) as Hl.
  destruct (Next_loop pick done 0 (channel (base q)) (driver (base q)))
    as [[r [ch d]] t].
  simpl in *. intros Hb. destruct (Hl Hb) as (Hd & ->).
  rewrite app_nil_r in Hch. subst consumed. auto.
Qed.

End NextTraces.

(** ** More on the file utilities *)

Section FileUtilMore.
Import Go os filepath io jasper.
Context {F : Type} `{FileSystem F} `{FilePath}.

(** X9: [MakeEnclosingDirectories] panics exactly when [os.Stat]
    returns no [FileInfo] together with anything but a "does not exist"
    error: the [info.IsDir()] of the second branch is then called on
    nil. *)
Theorem MakeEnclosingDirectories_panics_iff (path : string) (fs : F) :
  (MakeEnclosingDirectories path fs).1 = Panic
  ↔ (Stat path fs).1 = None ∧ IsNotExist (Stat path fs).2 = false.
Proof.
  unfold MakeEnclosingDirectories.
  destruct (Stat path fs) as [info err]. simpl.
  destruct (IsNotExist err).
  - destruct (MkdirAll path (Z.lor ModeDir ModePerm) fs) as [[e |] fs1]; simpl;
      split; try discriminate; intros [_ Hc]; discriminate.
  - destruct info as [i |]; simpl.
    + destruct (negb (IsDir i)); simpl; split; try discriminate;
        intros [Hc _]; discriminate.
    + split; auto.
Qed.

(** X10: [MakeEnclosingDirectories] returns nil in two cases only: the
    path did not exist and [os.MkdirAll] made it, or the path is a
    directory already, and then the file system is as it was. *)
Theorem MakeEnclosingDirectories_nil_iff (path : string) (fs fs' : F) :
  (MakeEnclosingDirectories path fs).1 = Ret (None, fs')
  ↔ (IsNotExist (Stat path fs).2 = true
     ∧ MkdirAll path (Z.lor ModeDir ModePerm) fs = (None, fs'))
    ∨ (IsNotExist (Stat path fs).2 = false
       ∧ (∃ i, (Stat path fs).1 = Some i ∧ IsDir i = true)
       ∧ fs' = fs).
Proof.
  unfold MakeEnclosingDirectories.
  destruct (Stat path fs) as [info err]. simpl.
  destruct (IsNotExist err).
  - destruct (MkdirAll path (Z.lor ModeDir ModePerm) fs) as [[e |] fs1]; simpl; split.
    + discriminate.
    + intros [[_ Hc] | [Hc _]]; discriminate.
    + intros [= <-]. left. auto.
    + intros [[_ [= <-]] | [Hc _]]; [reflexivity | discriminate].
  - destruct info as [i |]; simpl.
    + destruct (IsDir i) eqn:Hd; simpl; split.
      * intros [= <-]. right. eauto.
      * intros [[Hc _] | (_ & _ & ->)]; [discriminate | reflexivity].
      * discriminate.
      * intros [[Hc _] | (_ & (i' & [= <-] & Hd') & _)]; [discriminate | congruence].
    + split; [discriminate |].
      intros [[Hc _] | (_ & (i' & Hc & _) & _)]; discriminate.
Qed.

(** X11: [WriteFile] returns nil exactly when the enclosing directories
    are there or made, [os.Create] succeeds, the write of the reader's
    bytes succeeds and the reader ends without an error; the file system
    it leaves is the one after that write. *)
Theorem WriteFile_nil_iff (reader : Reader) (path : string) (fs fs' : F) :
  (WriteFile reader path fs).1 = Ret (None, fs')
  ↔ ∃ fs1 fs2,
      (MakeEnclosingDirectories (Dir path) fs).1 = Ret (None, fs1)
      ∧ Create path fs1 = (None, fs2)
      ∧ Write path (data reader) fs2 = (None, fs')
      ∧ readErr reader = None.
Proof.
  unfold WriteFile, Copy.
  destruct (MakeEnclosingDirectories (Dir path) fs) as [[[[e |] fs1] |] t]; simpl.
  - split; [discriminate | intros (? & ? & Hc & _); discriminate].
  - destruct (Create path fs1) as [[e |] fs2] eqn:HC; simpl.
    + split; [discriminate |].
      intros (fs1' & fs2' & [= <-] & Hc & _). congruence.
    + destruct (Write path (data reader) fs2) as [[e |] fs3] eqn:HW; simpl.
      * split; [discriminate |].
        intros (fs1' & fs2' & [= <-] & Hc & Hw & _).
        rewrite HC in Hc. injection Hc as <-. congruence.
      * destruct (readErr reader) as [e |] eqn:HR; simpl.
        -- split; [discriminate | intros (? & ? & _ & _ & _ & Hc); discriminate].
        -- split.
           ++ intros [= <-]. exists fs1, fs2. auto.
           ++ intros (fs1' & fs2' & [= <-] & Hc & Hw & _).
              rewrite HC in Hc. injection Hc as <-. congruence.
  - split; [discriminate | intros (? & ? & Hc & _); discriminate].
Qed.

(** X12: [WriteFile] never creates the file when the enclosing
    directories cannot be made, and never writes to it when [os.Create]
    failed: a [Create] call in its trace comes after a nil result of
    [MakeEnclosingDirectories], a [Write] call after a nil [Create]. *)
Theorem WriteFile_call_order (reader : Reader) (path : string) (fs : F) :
  (∀ p err, CallCreate p err ∈ (WriteFile reader path fs).2 →
     p = path ∧ ∃ fs1, (MakeEnclosingDirectories (Dir path) fs).1 = Ret (None, fs1))
  ∧ (∀ p bytes err, CallWrite p bytes err ∈ (WriteFile reader path fs).2 →
       p = path ∧ bytes = data reader
       ∧ ∃ fs1, (MakeEnclosingDirectories (Dir path) fs).1 = Ret (None, fs1)
                ∧ (Create path fs1).1 = None).
Proof.
  assert (Hmed : ∀ p0 (fs0 : F),
            (∀ p err, CallCreate p err ∉ (MakeEnclosingDirectories p0 fs0).2)
            ∧ (∀ p b err, CallWrite p b err ∉ (MakeEnclosingDirectories p0 fs0).2)).
  { intros p0 fs0. unfold MakeEnclosingDirectories.
    destruct (Stat p0 fs0) as [info err0].
    destruct (IsNotExist err0).
    - destruct (MkdirAll p0 (Z.lor ModeDir ModePerm) fs0) as [[e |] fs1]; simpl;
        split; intros; rewrite !elem_of_cons, elem_of_nil; intros [? | [? | []]];
        discriminate.
    - destruct info as [i |]; [destruct (negb (IsDir i)) |]; simpl;
        split; intros; rewrite !elem_of_cons, elem_of_nil; intros [? | []];
        discriminate. }
  specialize (Hmed (Dir path) fs) as [HmC HmW].
  unfold WriteFile, Copy.
  destruct (MakeEnclosingDirectories (Dir path) fs) as [[[[e |] fs1] |] t]; simpl in *.
  1, 3: split; intros; exfalso; [eapply HmC | eapply HmW]; eassumption.
  assert (Hend : ∀ (tail : list Call),
    (∀ p err, CallCreate p err ∈ tail → p = path)
    → (∀ p b err, CallWrite p b err ∈ tail →
         p = path ∧ b = data reader ∧ (Create path fs1).1 = None)
    → (∀ p err, CallCreate p err ∈ t ++ tail →
         p = path ∧ ∃ fs1', Ret (@None error, fs1) = Ret (None, fs1'))
      ∧ (∀ p b err, CallWrite p b err ∈ t ++ tail →
           p = path ∧ b = data reader
           ∧ ∃ fs1', Ret (@None error, fs1) = Ret (None, fs1') ∧ (Create path fs1').1 = None)).
  { intros tail HC HW. split.
    - intros p err Hin. apply elem_of_app in Hin as [Hin | Hin];
        [exfalso; eapply HmC; eassumption |]. eauto.
    - intros p b err Hin. apply elem_of_app in Hin as [Hin | Hin];
        [exfalso; eapply HmW; eassumption |].
      destruct (HW _ _ _ Hin) as (-> & -> & Hc). eauto. }
  destruct (Create path fs1) as [[e |] fs2] eqn:HC; simpl.
  - apply Hend.
    + intros p err Hin. apply list_elem_of_singleton in Hin. congruence.
    + intros p b err Hin. apply list_elem_of_singleton in Hin. discriminate.
  - destruct (Write path (data reader) fs2) as [werr fs3].
    assert (Htail :
      (∀ p err, CallCreate p err
                  ∈ [CallCreate path None; CallWrite path (data reader) werr] → p = path)
      ∧ (∀ p b err, CallWrite p b err
                      ∈ [CallCreate path None; CallWrite path (data reader) werr] →
           p = path ∧ b = data reader ∧ @None error = None)).
    { split; intros *; rewrite !elem_of_cons, elem_of_nil;
        intros [Hin | [Hin | []]]; try discriminate; simplify_eq; auto. }
    destruct werr as [e |]; [| destruct (readErr reader)]; simpl;
      apply Hend; apply Htail.
Qed.

End FileUtilMore.

(** ** More on the DEB repository job *)

Section RepoMore.
Import Go grip os filepath gzip repobuilder.
Context {RepositoryConfig MongoDBVersion : Type}.
Context {F : Type} `{FileSystem F} `{FilePath} `{Gzip}.

(** X13: [gzipAndWriteToFile] touches the file system only when the
    compression went through, and then with one [ioutil.WriteFile] of the
    compressed bytes to the file it was given, mode 0644; it returns nil
    exactly when that write succeeded, and every error it returns wraps
    the error of the stage that failed. *)
Theorem gzipAndWriteToFile_behaviour fileName content (fs : F) :
  match run BestCompression content with
  | Compressed out =>
      (gzipAndWriteToFile fileName content fs).1.2 = (WriteFile fileName out perm0644 fs).2
      ∧ ((gzipAndWriteToFile fileName content fs).1.1 = None
         ↔ (WriteFile fileName out perm0644 fs).1 = None)
      ∧ omap writeOf (gzipAndWriteToFile fileName content fs).2
        = [CallWriteFile fileName out perm0644 (WriteFile fileName out perm0644 fs).1]
  | _ =>
      (gzipAndWriteToFile fileName content fs).1.2 = fs
      ∧ (gzipAndWriteToFile fileName content fs).1.1 ≠ None
      ∧ omap writeOf (gzipAndWriteToFile fileName content fs).2 = []
  end
  ∧ ∀ e, (gzipAndWriteToFile fileName content fs).1.1 = Some e →
         ∃ cause msg, e = ErrWrap cause msg.
Proof.
  unfold gzipAndWriteToFile.
  destruct (run BestCompression content) as [e0 | e0 | e0 | out]; simpl.
  1-3: split; [split; [reflexivity | split; [discriminate | reflexivity]] |];
       intros e [= <-]; eauto.
  destruct (WriteFile fileName out perm0644 fs) as [[e0 |] fs1]; simpl.
  - split; [split; [reflexivity | split; [split; discriminate | reflexivity]] |].
    intros e [= <-]. eauto.
  - split; [split; [reflexivity | split; [split; reflexivity | reflexivity]] |].
    discriminate.
Qed.

(** X14: the loop over a list of architectures put together from two
    lists is the loop over the first followed by the loop over the
    second, started from the catcher and the file system the first one
    left. *)
Theorem createArchDirs_loop_app basePath (a b : list string) (c0 : Catcher) (fs : F) :
  createArchDirs_loop (a ++ b) basePath c0 fs =
    (let '(c1, fs1, t1) := createArchDirs_loop a basePath c0 fs in
     let '(c2, fs2, t2) := createArchDirs_loop b basePath c1 fs1 in
     (c2, fs2, t1 ++ t2)).
Proof.
  revert c0 fs. induction a as [| arch rest IH]; intros c0 fs; simpl.
  - destruct (createArchDirs_loop b basePath c0 fs) as [[c2 fs2] t2]. reflexivity.
  - destruct (Stat (archPath basePath arch) fs) as [info err].
    destruct (IsNotExist err).
    + destruct (MkdirAll (archPath basePath arch) perm0755 fs) as [[e1 |] fs1].
      * rewrite IH.
        destruct (createArchDirs_loop rest basePath (Add c0 (Some e1)) fs1)
          as [[c1 fs1'] t1].
        destruct (createArchDirs_loop b basePath c1 fs1') as [[c2 fs2] t2]. reflexivity.
      * destruct (WriteFile (Join [archPath basePath arch; "Packages"]) []
                    perm0644 fs1) as [[e2 |] fs2].
        -- rewrite IH.
           destruct (createArchDirs_loop rest basePath (Add c0 (Some e2)) fs2)
             as [[c1 fs1'] t1].
           destruct (createArchDirs_loop b basePath c1 fs1') as [[c2 fs2'] t2].
           reflexivity.
        -- destruct (gzipAndWriteToFile (Join [archPath basePath arch; "Packages.gz"])
                       [] fs2) as [[err3 fs3] tg].
           rewrite IH.
           destruct (createArchDirs_loop rest basePath (Add c0 err3) fs3)
             as [[c1 fs1'] t1].
           destruct (createArchDirs_loop b basePath c1 fs1') as [[c2 fs2'] t2].
           simpl. rewrite <- app_assoc. reflexivity.
    + rewrite IH.
      destruct (createArchDirs_loop rest basePath c0 fs) as [[c1 fs1'] t1].
      destruct (createArchDirs_loop b basePath c1 fs1') as [[c2 fs2] t2]. reflexivity.
Qed.

Lemma createArchDirs_loop_starts_with_stat basePath (archs : list string)
    (c0 : Catcher) (fs : F) :
  (createArchDirs_loop archs basePath c0 fs).2 = []
  ∨ ∃ p info err rest,
      (createArchDirs_loop archs basePath c0 fs).2 = Sys (CallStat p info err) :: rest.
Proof.
  destruct archs as [| arch rest]; simpl; [left; reflexivity | right].
  destruct (Stat (archPath basePath arch) fs) as [info err].
  destruct (IsNotExist err).
  - destruct (MkdirAll (archPath basePath arch) perm0755 fs) as [[e1 |] fs1].
    + destruct (createArchDirs_loop rest basePath (Add c0 (Some e1)) fs1)
        as [[c1 fs1'] t1]. simpl. eauto.
    + destruct (WriteFile (Join [archPath basePath arch; "Packages"]) []
                  perm0644 fs1) as [[e2 |] fs2].
      * destruct (createArchDirs_loop rest basePath (Add c0 (Some e2)) fs2)
          as [[c1 fs1'] t1]. simpl. eauto.
      * destruct (gzipAndWriteToFile (Join [archPath basePath arch; "Packages.gz"])
                    [] fs2) as [[err3 fs3] tg].
        destruct (createArchDirs_loop rest basePath (Add c0 err3) fs3)
          as [[c1 fs1'] t1]. simpl. eauto.
  - destruct (createArchDirs_loop rest basePath c0 fs) as [[c1 fs1'] t1]. simpl. eauto.
Qed.

Lemma createArchDirs_loop_failure_next basePath (archs : list string) :
  ∀ (c0 : Catcher) (fs : F) pre e post,
    (createArchDirs_loop archs basePath c0 fs).2 = pre ++ e :: post →
    failed e = true →
    post = [] ∨ ∃ p info err post', post = Sys (CallStat p info err) :: post'.
Proof.
  induction archs as [| arch rest IH]; intros c0 fs pre e post; simpl.
  { intros Ht. peel Ht. }
  destruct (Stat (archPath basePath arch) fs) as [info err].
  destruct (IsNotExist err).
  - destruct (MkdirAll (archPath basePath arch) perm0755 fs) as [[e1 |] fs1].
    + pose proof (createArchDirs_loop_starts_with_stat basePath rest
                    (Add c0 (Some e1)) fs1) as Hst.
      specialize (IH (Add c0 (Some e1)) fs1).
      destruct (createArchDirs_loop rest basePath (Add c0 (Some e1)) fs1)
        as [[c1 fs1'] t1].
      simpl in *. intros Ht Hf. peel Ht; [simplify_eq; discriminate |].
      peel Ht; [simplify_eq; exact Hst |]. eauto.
    + destruct (WriteFile (Join [archPath basePath arch; "Packages"]) []
                  perm0644 fs1) as [[e2 |] fs2].
      * pose proof (createArchDirs_loop_starts_with_stat basePath rest
                      (Add c0 (Some e2)) fs2) as Hst.
        specialize (IH (Add c0 (Some e2)) fs2).
        destruct (createArchDirs_loop rest basePath (Add c0 (Some e2)) fs2)
          as [[c1 fs1'] t1].
        simpl in *. intros Ht Hf. peel Ht; [simplify_eq; discriminate |].
        peel Ht; [simplify_eq; discriminate |].
        peel Ht; [simplify_eq; exact Hst |]. eauto.
      * unfold gzipAndWriteToFile.
        destruct (run BestCompression []) as [e0 | e0 | e0 | out]; simpl.
        4: destruct (WriteFile (Join [archPath basePath arch; "Packages.gz"]) out
                       perm0644 fs2) as [[e0 |] fs3]; simpl.
        all: match goal with
             | |- context [createArchDirs_loop ?r ?b ?c ?f] =>
                 pose proof (createArchDirs_loop_starts_with_stat b r c f) as Hst;
                 specialize (IH c f);
                 destruct (createArchDirs_loop r b c f) as [[c1 fs1'] t1]
             end;
             simpl in *; intros Ht Hf;
             repeat (peel Ht; [simplify_eq; first [discriminate | exact Hst] |]);
             eauto.
  - specialize (IH c0 fs).
    destruct (createArchDirs_loop rest basePath c0 fs) as [[c1 fs1'] t1].
    simpl in *. intros Ht Hf. peel Ht; [simplify_eq; discriminate |]. eauto.
Qed.

(** X15: in [createArchDirs] a step that fails ends the work on its
    architecture: the next thing done, if any, is the [os.Stat] of the
    next architecture's directory. *)
Theorem createArchDirs_failure_ends_architecture
    (j : @BuildDEBRepoJob RepositoryConfig MongoDBVersion) basePath (fs : F)
    pre e post :
  (createArchDirs j basePath fs).2 = pre ++ e :: post →
  failed e = true →
  post = [] ∨ ∃ p info err post', post = Sys (CallStat p info err) :: post'.
Proof.
  unfold createArchDirs.
  destruct (Distro (Job_ j)) as [distro |]; [| simpl; intros Ht; peel Ht].
  pose proof (createArchDirs_loop_failure_next basePath (Architectures distro)
                NewCatcher fs pre e post) as Hl.
  destruct (createArchDirs_loop (Architectures distro) basePath NewCatcher fs)
    as [[c fs'] t].
  exact Hl.
Qed.

End RepoMore.

(** ** [injectPackage] and [rebuildRepo] *)

Section SplitFacts.
Import gostrings.

(** [Split] yields one piece more than there are separators. *)
Lemma Split_length (s : string) (sep : ascii) :
  length (Split s sep) = S (Count s sep).
Proof.
  induction s as [| c rest IH]; simpl; [reflexivity |].
  destruct (Ascii.eqb c sep); simpl; [rewrite IH; reflexivity |].
  destruct (Split rest sep) as [| p ps]; [discriminate IH | exact IH].
Qed.

(** Joining the pieces with the separator gives the string back. *)
Lemma Split_concat (s : string) (sep : ascii) :
  String.concat (String sep EmptyString) (Split s sep) = s.
Proof.
  induction s as [| c rest IH]; simpl; [reflexivity |].
  destruct (Ascii.eqb c sep) eqn:Heq.
  - apply Ascii.eqb_eq in Heq as ->.
    destruct (Split rest sep) as [| p ps] eqn:Hs.
    + pose proof (Split_length rest sep) as Hl. rewrite Hs in Hl. discriminate Hl.
    + simpl in *. rewrite IH. reflexivity.
  - destruct (Split rest sep) as [| p ps] eqn:Hs.
    + pose proof (Split_length rest sep) as Hl. rewrite Hs in Hl. discriminate Hl.
    + simpl in *. destruct ps; simpl in *; rewrite <- IH; reflexivity.
Qed.

End SplitFacts.

Section InjectTheorems.
Import Go grip os filepath gzip repobuilder.
Context {RepositoryConfig MongoDBVersion : Type}.
Context {F : Type} `{FileSystem F} `{FilePath} `{Gzip}.
Variable linkPackages :
  @BuildDEBRepoJob RepositoryConfig MongoDBVersion → string → F →
  option error * @BuildDEBRepoJob RepositoryConfig MongoDBVersion * F.

(** X16: [injectPackage] always links: [linkPackages] is called once,
    after [createArchDirs] and on the file system it left, whether
    [createArchDirs] failed or not.  The path returned is the repository
    path in every case, and the error is nil exactly when both calls
    returned nil; when both failed the message of the link error comes
    first. *)
Theorem injectPackage_always_links
    (j : @BuildDEBRepoJob RepositoryConfig MongoDBVersion) distro local repoName (fs : F) :
  Distro (Job_ j) = Some distro →
  ∃ err fs1 t lerr j1 fs2 rerr,
    createArchDirs j (Join [local; repoName; Component distro]) fs
      = (Ret (err, fs1), t)
    ∧ linkPackages j
        (Join [Join [local; repoName; Component distro]; "binary-" +:+ Arch (Job_ j)])
        fs1 = (lerr, j1, fs2)
    ∧ injectPackage linkPackages j local repoName fs
      = (Ret (Join [local; repoName; Component distro], rerr, j1, fs2),
         map Ev t
           ++ [CallLinkPackages
                 (Join [Join [local; repoName; Component distro];
                        "binary-" +:+ Arch (Job_ j)]) lerr])
    ∧ (rerr = None ↔ err = None ∧ lerr = None)
    ∧ (∀ el ec, lerr = Some el → err = Some ec →
         rerr = Some (ErrNew (Go.Error el +:+ newline +:+ Go.Error ec))).
Proof.
  intros HD. unfold injectPackage. rewrite HD.
  destruct (createArchDirs j (Join [local; repoName; Component distro]) fs)
    as [[[err fs1] |] t] eqn:HC.
  2: { unfold createArchDirs in HC. rewrite HD in HC.
       destruct (createArchDirs_loop _ _ _ _) as [[? ?] ?]. discriminate HC. }
  destruct (linkPackages j _ fs1) as [[lerr j1] fs2] eqn:HLk.
  exists err, fs1, t, lerr, j1, fs2, (Resolve (Add (Add NewCatcher lerr) err)).
  split; [reflexivity |]. split; [exact HLk |]. split; [reflexivity |].
  split.
  - destruct lerr, err; simpl; split; try discriminate; try tauto;
      intros [? ?]; discriminate.
  - intros el ec -> ->. reflexivity.
Qed.

End InjectTheorems.

Section PipelineTheorems.
Import Go grip os filepath gzip gostrings repobuilder.
Context {RepositoryConfig MongoDBVersion : Type}.
Context {F : Type} `{FileSystem F} `{FilePath} `{Gzip} `{exec.Exec F}.
Variable Template : Type.
Variable Separator : ascii.
Variable addError :
  @BuildDEBRepoJob RepositoryConfig MongoDBVersion → error →
  @BuildDEBRepoJob RepositoryConfig MongoDBVersion.
Variable signFile :
  @BuildDEBRepoJob RepositoryConfig MongoDBVersion → string → string → bool → F →
  option error * @BuildDEBRepoJob RepositoryConfig MongoDBVersion * F.
Variable debTemplates : RepositoryConfig → gmap string string.
Variable BuildIndexPageForDirectory :
  RepositoryConfig → string → string → F → option error * F.
Variable Parse : string → Template * option error.
Variable Execute : Template → string → string → string → list Byte.byte * option error.

(** X17: [rebuildRepo] panics on a working directory with fewer than four
    separators, before it runs any command or touches any file: only the
    deferred [wg.Done()] runs. *)
Theorem rebuildRepo_short_path_panics
    (j : @BuildDEBRepoJob RepositoryConfig MongoDBVersion) workingDir (fs : F) :
  (Count workingDir Separator < 4)%nat →
  rebuildRepo Template Separator addError signFile debTemplates
    BuildIndexPageForDirectory Parse Execute j workingDir fs = (Panic, [WgDone]).
Proof.
  intros Hc. unfold rebuildRepo.
  rewrite Split_length.
  destruct (S (Count workingDir Separator) <? 5)%nat eqn:Hlt; [reflexivity |].
  apply Nat.ltb_ge in Hlt. lia.
Qed.

(** X18: in [rebuildRepo] a step that returns an error is the last one
    that does any work: after it come at most the log lines of that
    step, one [addError], and the deferred [wg.Done()]. *)
Theorem rebuildRepo_failure_is_final
    (j : @BuildDEBRepoJob RepositoryConfig MongoDBVersion) workingDir (fs : F)
    pre s post :
  (rebuildRepo Template Separator addError signFile debTemplates
     BuildIndexPageForDirectory Parse Execute j workingDir fs).2 = pre ++ s :: post →
  is_Some (stepErr s) →
  ∃ logs e', post = logged logs ++ [CallAddError e'; WgDone].
Proof.
  destruct (rebuildRepo Template Separator addError signFile debTemplates
              BuildIndexPageForDirectory Parse Execute j workingDir fs)
    as [r t] eqn:HR.
  simpl. intros -> Hs. revert HR.
  unfold rebuildRepo, gzipAndWriteToFile.
  repeat case_match; intros [= <- Ht]; simplify_eq.
  all: rewrite <- ?app_assoc in Ht; cbn [app map logged Logf Logln] in Ht.
  all: repeat (peel Ht;
               [simplify_eq; simpl in Hs;
                first [ by apply is_Some_None in Hs
                      | eexists [], _; reflexivity
                      | eexists [_], _; reflexivity
                      | eexists [_; _], _; reflexivity ] |]).
  all: peel Ht.
Qed.

(** X19: [rebuildRepo] ends with the deferred [wg.Done()] and calls
    [addError] at most once, as the last thing before it; the job it
    returns is then the result of that [addError]; a panic adds no
    error. *)
Theorem rebuildRepo_one_error_at_most
    (j : @BuildDEBRepoJob RepositoryConfig MongoDBVersion) workingDir (fs : F) r t :
  rebuildRepo Template Separator addError signFile debTemplates
    BuildIndexPageForDirectory Parse Execute j workingDir fs = (r, t) →
  last t = Some WgDone
  ∧ (length (addedErrors t) ≤ 1)%nat
  ∧ (∀ e, CallAddError e ∈ t →
       ∃ pre j0 fs', t = pre ++ [CallAddError e; WgDone] ∧ r = Ret (addError j0 e, fs'))
  ∧ (r = Panic → addedErrors t = []).
Proof.
  unfold rebuildRepo, gzipAndWriteToFile.
  repeat case_match; intros [= <- <-]; simplify_eq.
  all: rewrite <- ?app_assoc; cbn [app map logged Logf Logln].
  all: split; [reflexivity |]; split; [simpl; lia |]; split;
       [| first [discriminate | reflexivity]].
  all: intros e0 Hin;
       repeat (apply elem_of_cons in Hin as [Hin | Hin];
               [try discriminate;
                injection Hin as ->;
                match goal with
                | |- ∃ _ _ _, ?t = _ ∧ _ => exists (removelast (removelast t))
                end;
                eexists _, _; split; reflexivity |]);
       inversion Hin.
Qed.

(** X20: the only files [rebuildRepo] writes itself are the
    architecture's Packages file, holding the output of
    dpkg-scanpackages, that file's .gz, holding the gzip of the same
    output, and the Release file beside the working directory, holding
    the rendered template followed by the output of apt-ftparchive. *)
Theorem rebuildRepo_writes
    (j : @BuildDEBRepoJob RepositoryConfig MongoDBVersion) workingDir (fs : F) r t
    p content :
  rebuildRepo Template Separator addError signFile debTemplates
    BuildIndexPageForDirectory Parse Execute j workingDir fs = (r, t) →
  (p, content) ∈ fileWrites t →
  (p = Join [workingDir; "binary-" +:+ Arch (Job_ j); "Packages"]
   ∧ ∃ args dir, CallOutput "dpkg-scanpackages" args dir content None ∈ t)
  ∨ (p = Join [workingDir; "binary-" +:+ Arch (Job_ j); "Packages"] +:+ ".gz"
     ∧ ∃ args dir out,
         CallOutput "dpkg-scanpackages" args dir out None ∈ t
         ∧ run BestCompression out = Compressed content)
  ∨ (p = Join [Dir workingDir; "Release"]
     ∧ ∃ codeName component architectures buffer out2,
         CallExecute codeName component architectures buffer None ∈ t
         ∧ CallOutput "apt-ftparchive" ["release"; "../"] workingDir out2 None ∈ t
         ∧ content = buffer ++ out2).
Proof.
  unfold rebuildRepo, gzipAndWriteToFile.
  repeat case_match; intros [= <- <-]; simplify_eq.
  all: rewrite <- ?app_assoc; cbn [app map logged Logf Logln].
  all: intros Hin; cbn in Hin.
  all: repeat (apply elem_of_cons in Hin as [Hin | Hin];
               [injection Hin as -> ->;
                first
                  [ left; split; [reflexivity |]; eexists _, _; in_trace
                  | right; left; split; [reflexivity |]; eexists _, _, _;
                    split; [in_trace | eassumption]
                  | right; right; split; [reflexivity |]; eexists _, _, _, _, _;
                    split; [in_trace |]; split; [in_trace | reflexivity] ] |]).
  all: inversion Hin.
Qed.

(** X21: when [addError] and [signFile] leave the job's [Output] alone,
    [rebuildRepo] adds one entry to it, the output of apt-ftparchive
    under the key "sign-release-file-" followed by the working
    directory, exactly when apt-ftparchive succeeded, and changes nothing
    of it otherwise. *)
Theorem rebuildRepo_output
    (j j' : @BuildDEBRepoJob RepositoryConfig MongoDBVersion) workingDir (fs fs' : F) t :
  (∀ x e, Output (Job_ (addError x e)) = Output (Job_ x)) →
  (∀ x name ext o f, Output (Job_ (signFile x name ext o f).1.2) = Output (Job_ x)) →
  rebuildRepo Template Separator addError signFile debTemplates
    BuildIndexPageForDirectory Parse Execute j workingDir fs = (Ret (j', fs'), t) →
  (∀ out2,
     CallOutput "apt-ftparchive" ["release"; "../"] workingDir out2 None ∈ t →
     Output (Job_ j')
     = <["sign-release-file-" +:+ workingDir := String.string_of_list_byte out2]>
         (Output (Job_ j)))
  ∧ ((∀ out2,
        CallOutput "apt-ftparchive" ["release"; "../"] workingDir out2 None ∉ t) →
     Output (Job_ j') = Output (Job_ j)).
Proof.
  intros Hadd Hsign.
  unfold rebuildRepo, gzipAndWriteToFile.
  repeat case_match; intros [= <- <-]; simplify_eq.
  all: rewrite <- ?app_assoc; cbn [app map logged Logf Logln].
  all: repeat match goal with
         | Hs : signFile ?x ?n ?e ?o ?f = (_, ?j2, _) |- _ =>
             let Hj := fresh "Hj" in
             pose proof (Hsign x n e o f) as Hj; rewrite Hs in Hj; simpl in Hj;
             clear Hs
         end.
  all: split;
       [ intros out2 Hin;
         repeat (apply elem_of_cons in Hin as [Hin | Hin];
                 [try discriminate; injection Hin as ->;
                  rewrite ?Hadd, ?Hj; reflexivity |]);
         inversion Hin
       | intros Hno;
         first [ rewrite ?Hadd; reflexivity
               | exfalso; eapply Hno; in_trace ] ].
Qed.

End PipelineTheorems.

Section ConstructorMore.
Import Go grip repobuilder.
Context {RepositoryConfig MongoDBVersion : Type}.

(** X22: [NewBuildDEBRepo] returns a job or an error, never both and
    never neither: a job exactly when the version parses and the working
    directory is known.  A version that does not parse gives that error
    and no log line; an unknown working directory gives that error and
    one line at the [Error] level. *)
Theorem NewBuildDEBRepo_job_xor_error
    (NewMongoDBVersion : string → option MongoDBVersion * option error)
    (Getwd : string * option error) (GetNumber : Z)
    (buildRepoJob : @Job RepositoryConfig MongoDBVersion)
    conf distro version arch profile pkgs :
  (is_Some (NewBuildDEBRepo NewMongoDBVersion Getwd GetNumber buildRepoJob
              conf distro version arch profile pkgs).1.1
   ↔ (NewBuildDEBRepo NewMongoDBVersion Getwd GetNumber buildRepoJob
        conf distro version arch profile pkgs).1.2 = None)
  ∧ (is_Some (NewBuildDEBRepo NewMongoDBVersion Getwd GetNumber buildRepoJob
                conf distro version arch profile pkgs).1.1
     ↔ (NewMongoDBVersion version).2 = None ∧ Getwd.2 = None)
  ∧ (∀ e, (NewMongoDBVersion version).2 = Some e →
       NewBuildDEBRepo NewMongoDBVersion Getwd GetNumber buildRepoJob
         conf distro version arch profile pkgs = ((None, Some e), []))
  ∧ (∀ e, (NewMongoDBVersion version).2 = None → Getwd.2 = Some e →
       (NewBuildDEBRepo NewMongoDBVersion Getwd GetNumber buildRepoJob
          conf distro version arch profile pkgs).1 = (None, Some e)
       ∧ map level (NewBuildDEBRepo NewMongoDBVersion Getwd GetNumber buildRepoJob
                      conf distro version arch profile pkgs).2 = [Error]).
Proof.
  unfold NewBuildDEBRepo.
  destruct (NewMongoDBVersion version) as [rel [ev |]]; simpl.
  - split; [split; [intros [? [=]] | discriminate] |].
    split; [split; [intros [? [=]] | intros [[=] _]] |].
    split; [intros e [= <-]; reflexivity | discriminate].
  - destruct Getwd as [wd [eg |]]; simpl.
    + split; [split; [intros [? [=]] | discriminate] |].
      split; [split; [intros [? [=]] | intros [_ [=]]] |].
      split; [discriminate |]. intros e _ [= <-]. split; reflexivity.
    + split; [split; [reflexivity | eauto] |].
      split; [split; [auto | eauto] |].
      split; discriminate.
Qed.

End ConstructorMore.

(** ** The "send" action of poplar *)

Section PoplarTheorems.
Import Go operations.
Context {CliContext Report Conn Creds DialOption W : Type}.
Variable cString : CliContext → string → string.
Variable cBool : CliContext → string → bool.
Variable LoadReport : string → W → option Report * option error * W.
Variable WithInsecure : DialOption.
Variable NewClientTLSFromFile : string → string → W → option Creds * option error * W.
Variable WithTransportCredentials : option Creds → DialOption.
Variable DialContext : string → list DialOption → W → option Conn * option error * W.
Variable UploadReport : option Report → option Conn → W → option error * W.
Variable WithStack : error → error.

(** X23: the action loads, dials and uploads in that order and stops at
    the first failure: it dials the "service" address only after the
    report at "path" was loaded, uploads only after the dial succeeded,
    returns nil exactly when the upload succeeded, and returns every
    failure through [errors.WithStack].  The deferred [cancel()] runs
    exactly when the report was loaded. *)
Theorem poplarReport_steps_in_order (c : CliContext) (w : W) r w' t :
  poplarReportAction cString cBool LoadReport WithInsecure NewClientTLSFromFile
    WithTransportCredentials DialContext UploadReport WithStack c w = (r, w', t) →
  (∀ addr opts err, CallDial addr opts err ∈ t →
     addr = cString c "service" ∧ CallLoadReport (cString c "path") None ∈ t)
  ∧ (∀ report conn err, CallUpload report conn err ∈ t →
       ∃ opts, CallDial (cString c "service") opts None ∈ t)
  ∧ (r = None ↔ ∃ report conn, CallUpload report conn None ∈ t)
  ∧ (∀ e, r = Some e → ∃ cause, e = WithStack cause)
  ∧ (last t = Some Cancel ↔ CallLoadReport (cString c "path") None ∈ t).
Proof.
  unfold poplarReportAction, serviceFlagName, pathFlagName, insecureFlagName,
    certFileFlagName.
  repeat case_match; intros [= <- <- <-]; simplify_eq; cbn [app].
  all: split;
       [ intros ? ? ? Hin;
         repeat (apply elem_of_cons in Hin as [Hin | Hin];
                 [first [ discriminate
                        | injection Hin as -> -> ->; split; [reflexivity | in_trace] ] |]);
         inversion Hin |].
  all: split;
       [ intros ? ? ? Hin;
         repeat (apply elem_of_cons in Hin as [Hin | Hin];
                 [first [discriminate | eexists; in_trace] |]);
         inversion Hin |].
  all: split;
       [ split;
         [ first [discriminate | intros _; eexists _, _; in_trace]
         | intros (? & ? & Hin);
           repeat (apply elem_of_cons in Hin as [Hin | Hin];
                   [first [discriminate | reflexivity] |]);
           try inversion Hin ] |].
  all: split;
       [ intros e0 Heq;
         first [discriminate Heq | injection Heq as <-; eexists; reflexivity] |].
  all: split;
       [ first [ discriminate | intros _; in_trace ]
       | first [ intros _; reflexivity
               | intros Hin;
                 repeat (apply elem_of_cons in Hin as [Hin | Hin]; [discriminate |]);
                 inversion Hin ] ].
Qed.

(** X24: the dial options are one option: [grpc.WithInsecure()] when
    the "insecure" flag is set, and then the certificate file is not
    read; otherwise the transport credentials that
    [NewClientTLSFromFile] returned for the "certfile" flag, whatever
    error it reported with them. *)
Theorem poplarReport_dial_options (c : CliContext) (w : W) r w' t addr opts err :
  poplarReportAction cString cBool LoadReport WithInsecure NewClientTLSFromFile
    WithTransportCredentials DialContext UploadReport WithStack c w = (r, w', t) →
  CallDial addr opts err ∈ t →
  if cBool c "insecure" then
    opts = [WithInsecure]
    ∧ ∀ certFile name creds cerr, CallNewClientTLS certFile name creds cerr ∉ t
  else
    ∃ creds cerr,
      opts = [WithTransportCredentials creds]
      ∧ CallNewClientTLS (cString c "certfile") "" creds cerr ∈ t
      ∧ (NewClientTLSFromFile (cString c "certfile") ""
           (LoadReport (cString c "path") w).2).1 = (creds, cerr).
Proof.
  unfold poplarReportAction, serviceFlagName, pathFlagName, insecureFlagName,
    certFileFlagName.
  repeat case_match; intros [= <- <- <-]; simplify_eq; cbn [app].
  all: intros Hin;
       repeat (apply elem_of_cons in Hin as [Hin | Hin];
               [first [discriminate | injection Hin as -> -> ->] |]);
       try (inversion Hin; fail).
  all: first
         [ split; [reflexivity |];
           intros ? ? ? ? Hc;
           repeat (apply elem_of_cons in Hc as [Hc | Hc]; [discriminate |]);
           inversion Hc
         | eexists _, _; split; [reflexivity |]; split; [in_trace |];
           simpl;
           match goal with
           | Hn : NewClientTLSFromFile _ _ _ = _ |- _ => rewrite Hn; reflexivity
           end ].
Qed.

End PoplarTheorems.

(** ** The further properties on the sample inputs *)

Section MoreNextOnSamples.
Import Go grip amboy queue mem.

Lemma Next_dispatch_count_witness :
  1%nat = length (lockCalls (Next refreshedQueue (fun _ => false) false).2)
  ∧ (length (channel (base refreshedQueue))
     = 1 + length (channel (base (Next refreshedQueue (fun _ => false) false).1.2)))%nat.
Proof.
  apply (Next_dispatch_count refreshedQueue (fun _ => false) false 1).
  vm_compute. in_trace.
Defined.

Lemma Next_unlock_follows_failed_get_witness :
  ∃ pre' id e,
    [CallLock (Some (job "A" false 0)) None; CallGet "A" None (Some (ErrNew "NotFound"))]
    = pre' ++ [CallGet id None (Some e)].
Proof.
  apply (Next_unlock_follows_failed_get orphanQueue (fun _ => false) false
           [CallLock (Some (job "A" false 0)) None;
            CallGet "A" None (Some (ErrNew "NotFound"))]
           None (Some (ErrNew "Unlock: nil job"))
           [Logged {| level := Notice; message := MsgError (ErrNew "Unlock: nil job") |};
            Logged {| level := Warning; message := MsgError (ErrNew "NotFound") |}]).
  vm_compute. reflexivity.
Defined.

Lemma Next_get_follows_lock_witness :
  ∃ pre' c,
    [CallLock (Some (job "A" false 0)) None] = pre' ++ [CallLock (Some c) None]
    ∧ "A" = ID c ∧ Some c ∈ channel (base refreshedQueue).
Proof.
  apply (Next_get_follows_lock refreshedQueue (fun _ => false) false
           [CallLock (Some (job "A" false 0)) None] "A"
           (Some (job "A" false 3)) None [dispatchLine 1]).
  vm_compute. reflexivity.
Defined.

Lemma Next_no_panic_witness :
  (Next contendedQueue (fun _ => false) false).1.1 ≠ Panicked.
Proof.
  apply (Next_no_panic contendedQueue (fun _ => false) false).
  right. intros d0. discriminate.
Defined.

Lemma Next_blocks_only_when_drained_witness :
  false = false
  ∧ channel (base (Next orphanQueue (fun _ => false) false).1.2) = []
  ∧ lockCalls (Next orphanQueue (fun _ => false) false).2 = channel (base orphanQueue).
Proof.
  apply (Next_blocks_only_when_drained orphanQueue (fun _ => false) false).
  vm_compute. reflexivity.
Defined.

End MoreNextOnSamples.

Section MoreOnSamples.
Import Go grip os filepath gzip gostrings repobuilder mem.

Lemma createArchDirs_failure_ends_architecture_witness :
  [Sys (CallStat "/ro/binary-arm64" None
          (Some (ErrPath "stat" "/ro/binary-arm64" ENOENT)));
   Sys (CallMkdirAll "/ro/binary-arm64" perm0755
          (Some (ErrPath "mkdir" "/ro/binary-arm64" EACCES)))] = []
  ∨ ∃ p info err post',
      [Sys (CallStat "/ro/binary-arm64" None
              (Some (ErrPath "stat" "/ro/binary-arm64" ENOENT)));
       Sys (CallMkdirAll "/ro/binary-arm64" perm0755
              (Some (ErrPath "mkdir" "/ro/binary-arm64" EACCES)))]
      = Sys (CallStat p info err) :: post'.
Proof.
  apply (createArchDirs_failure_ends_architecture (debJob ["amd64"; "arm64"]) "/ro"
           dataTree
           [Sys (CallStat "/ro/binary-amd64" None
                   (Some (ErrPath "stat" "/ro/binary-amd64" ENOENT)))]
           (Sys (CallMkdirAll "/ro/binary-amd64" perm0755
                   (Some (ErrPath "mkdir" "/ro/binary-amd64" EACCES))))).
  - vm_compute. reflexivity.
  - reflexivity.
Defined.

Lemma injectPackage_always_links_witness :
  ∃ err fs1 t lerr j1 fs2 rerr,
    createArchDirs (debJob ["amd64"; "arm64"]) (Join ["/ro"; "apt"; "main"]) dataTree
      = (Ret (err, fs1), t)
    ∧ (match fs1 !! Join [Join ["/ro"; "apt"; "main"]; "binary-" +:+ "amd64"] with
       | Some (NDir _) => (None, debJob ["amd64"; "arm64"], fs1)
       | _ => (Some (ErrPath "link"
                       (Join [Join ["/ro"; "apt"; "main"]; "binary-" +:+ "amd64"])
                       ENOENT),
               debJob ["amd64"; "arm64"], fs1)
       end) = (lerr, j1, fs2)
    ∧ sampleInject "/ro" "apt" dataTree
      = (Ret (Join ["/ro"; "apt"; "main"], rerr, j1, fs2),
         map Ev t
           ++ [CallLinkPackages
                 (Join [Join ["/ro"; "apt"; "main"]; "binary-" +:+ "amd64"]) lerr])
    ∧ (rerr = None ↔ err = None ∧ lerr = None)
    ∧ (∀ el ec, lerr = Some el → err = Some ec →
         rerr = Some (ErrNew (Go.Error el +:+ newline +:+ Go.Error ec))).
Proof.
  apply (injectPackage_always_links
           (fun j path fs =>
              match fs !! path with
              | Some (NDir _) => (None, j, fs)
              | _ => (Some (ErrPath "link" path ENOENT), j, fs)
              end)
           (debJob ["amd64"; "arm64"])
           {| Architectures := ["amd64"; "arm64"]; Component := "main";
              CodeName := "stretch"; Edition := "org"; Bucket := "repo" |}
           "/ro" "apt" dataTree).
  reflexivity.
Defined.

Lemma rebuildRepo_short_path_panics_witness :
  sampleRebuild echoExec "/r/a" rebuildTree = (Panic, [WgDone]).
Proof.
  apply rebuildRepo_short_path_panics. vm_compute. lia.
Defined.

Lemma rebuildRepo_failure_is_final_witness :
  ∃ logs e',
    [CallAddError (ErrWrap (ErrNew "exec: dpkg-scanpackages: not found")
                     "building 'Packages': []");
     WgDone] = logged logs ++ [CallAddError e'; WgDone].
Proof.
  apply (rebuildRepo_failure_is_final (H2 := noExec) string "/"%char
           (fun j _ => j) (fun j _ _ _ fs => (None, j, fs))
           (fun _ => {[ "org" := "Origin: mongodb" ]}) (fun _ _ _ fs => (None, fs))
           (fun src => (src, None))
           (fun tmpl _ _ _ => (String.list_byte_of_string tmpl, None))
           (debJob ["amd64"]) "/r/a/b/c" rebuildTree
           [Ev (Logged {| level := Info;
                          message := MsgFormat "running command='%s' path='%s'" []
                            ["dpkg-scanpackages --multiversion r/a/b/c/binary-amd64";
                             "/"] |})]
           (CallOutput "dpkg-scanpackages" ["--multiversion"; "r/a/b/c/binary-amd64"]
              "/" [] (Some (ErrNew "exec: dpkg-scanpackages: not found")))).
  - vm_compute. reflexivity.
  - simpl. eauto.
Defined.

Lemma rebuildRepo_one_error_at_most_witness :
  last (sampleRebuild noExec "/r/a/b/c" rebuildTree).2 = Some WgDone
  ∧ (length (addedErrors (sampleRebuild noExec "/r/a/b/c" rebuildTree).2) ≤ 1)%nat
  ∧ (∀ e, CallAddError e ∈ (sampleRebuild noExec "/r/a/b/c" rebuildTree).2 →
       ∃ pre j0 fs',
         (sampleRebuild noExec "/r/a/b/c" rebuildTree).2
           = pre ++ [CallAddError e; WgDone]
         ∧ (sampleRebuild noExec "/r/a/b/c" rebuildTree).1 = Ret (j0, fs'))
  ∧ ((sampleRebuild noExec "/r/a/b/c" rebuildTree).1 = Panic →
     addedErrors (sampleRebuild noExec "/r/a/b/c" rebuildTree).2 = []).
Proof.
  apply (rebuildRepo_one_error_at_most (H2 := noExec) string "/"%char
           (fun j _ => j) (fun j _ _ _ fs => (None, j, fs))
           (fun _ => {[ "org" := "Origin: mongodb" ]}) (fun _ _ _ fs => (None, fs))
           (fun src => (src, None))
           (fun tmpl _ _ _ => (String.list_byte_of_string tmpl, None))
           (debJob ["amd64"]) "/r/a/b/c" rebuildTree).
  apply surjective_pairing.
Defined.

Lemma rebuildRepo_writes_witness :
  ("/r/a/b/Release" = Join ["/r/a/b/c"; "binary-" +:+ "amd64"; "Packages"]
   ∧ ∃ args dir,
       CallOutput "dpkg-scanpackages" args dir
         (String.list_byte_of_string "Origin: mongodbapt-ftparchive") None
         ∈ (sampleRebuild echoExec "/r/a/b/c" rebuildTree).2)
  ∨ ("/r/a/b/Release" = Join ["/r/a/b/c"; "binary-" +:+ "amd64"; "Packages"] +:+ ".gz"
     ∧ ∃ args dir out,
         CallOutput "dpkg-scanpackages" args dir out None
           ∈ (sampleRebuild echoExec "/r/a/b/c" rebuildTree).2
         ∧ run BestCompression out
           = Compressed (String.list_byte_of_string "Origin: mongodbapt-ftparchive"))
  ∨ ("/r/a/b/Release" = Join [Dir "/r/a/b/c"; "Release"]
     ∧ ∃ codeName component architectures buffer out2,
         CallExecute codeName component architectures buffer None
           ∈ (sampleRebuild echoExec "/r/a/b/c" rebuildTree).2
         ∧ CallOutput "apt-ftparchive" ["release"; "../"] "/r/a/b/c" out2 None
             ∈ (sampleRebuild echoExec "/r/a/b/c" rebuildTree).2
         ∧ String.list_byte_of_string "Origin: mongodbapt-ftparchive" = buffer ++ out2).
Proof.
  apply (rebuildRepo_writes (H2 := echoExec) string "/"%char
           (fun j _ => j) (fun j _ _ _ fs => (None, j, fs))
           (fun _ => {[ "org" := "Origin: mongodb" ]}) (fun _ _ _ fs => (None, fs))
           (fun src => (src, None))
           (fun tmpl _ _ _ => (String.list_byte_of_string tmpl, None))
           (debJob ["amd64"]) "/r/a/b/c" rebuildTree
           (sampleRebuild echoExec "/r/a/b/c" rebuildTree).1
           (sampleRebuild echoExec "/r/a/b/c" rebuildTree).2).
  - apply surjective_pairing.
  - vm_compute. in_trace.
Defined.

Lemma rebuildRepo_output_witness :
  ∃ j' fs',
    (sampleRebuild echoExec "/r/a/b/c" rebuildTree).1 = Ret (j', fs')
    ∧ Output (Job_ j') = {[ "sign-release-file-/r/a/b/c" := "apt-ftparchive" ]}.
Proof.
  destruct (sampleRebuild echoExec "/r/a/b/c" rebuildTree) as [[[j' fs'] |] t] eqn:HR;
    [| discriminate HR].
  exists j', fs'. split; [reflexivity |].
  destruct (rebuildRepo_output (H2 := echoExec) string "/"%char
              (fun j _ => j) (fun j _ _ _ fs => (None, j, fs))
              (fun _ => {[ "org" := "Origin: mongodb" ]}) (fun _ _ _ fs => (None, fs))
              (fun src => (src, None))
              (fun tmpl _ _ _ => (String.list_byte_of_string tmpl, None))
              (debJob ["amd64"]) j' "/r/a/b/c" rebuildTree fs' t
              (fun _ _ => eq_refl) (fun _ _ _ _ _ => eq_refl) HR) as [Hyes _].
  rewrite (Hyes (String.list_byte_of_string "apt-ftparchive")).
  - vm_compute. reflexivity.
  - injection HR as _ _ <-. vm_compute. in_trace.
Defined.

Lemma poplarReport_steps_in_order_witness :
  (sampleSend {[ "service" := "up:2288"; "path" := "report.json" ]} true []).1.1 = None
  ↔ ∃ report conn,
      operations.CallUpload report conn None
        ∈ (sampleSend {[ "service" := "up:2288"; "path" := "report.json" ]} true []).2.
Proof.
  refine (proj1 (proj2 (proj2
    (poplarReport_steps_in_order
       (CliContext := gmap string string) (Report := string) (Conn := string)
       (Creds := string) (DialOption := option (option string)) (W := list string)
       (fun c name => default "" (c !! name))
       (fun _ _ => true)
       (fun fileName w =>
          if String.eqb fileName "" then (None, Some (ErrNew "no such file"), w)
          else (Some fileName, None, w))
       None
       (fun certFile _ w => (None, Some (ErrPath "open" certFile ENOENT), w))
       Some
       (fun addr _ w =>
          if String.eqb addr "up:2288" then (Some addr, None, w)
          else (None, Some (ErrNew "connection refused"), w))
       (fun report _ w => (None, w ++ [default "" report]))
       (fun e => ErrWrap e "stack")
       {[ "service" := "up:2288"; "path" := "report.json" ]} []
       (sampleSend {[ "service" := "up:2288"; "path" := "report.json" ]} true []).1.1
       (sampleSend {[ "service" := "up:2288"; "path" := "report.json" ]} true []).1.2
       (sampleSend {[ "service" := "up:2288"; "path" := "report.json" ]} true []).2
       _)))).
  vm_compute. reflexivity.
Defined.

Lemma poplarReport_dial_options_witness :
  ∃ creds cerr,
    [Some None] = [Some creds]
    ∧ operations.CallNewClientTLS "client.pem" "" creds cerr
        ∈ (sampleSend {[ "service" := "up:2288"; "path" := "report.json";
                         "certfile" := "client.pem" ]} false []).2
    ∧ (@None string, Some (ErrPath "open" "client.pem" ENOENT)) = (creds, cerr).
Proof.
  refine (poplarReport_dial_options
            (CliContext := gmap string string) (Report := string) (Conn := string)
            (Creds := string) (DialOption := option (option string)) (W := list string)
            (fun c name => default "" (c !! name))
            (fun _ _ => false)
            (fun fileName w =>
               if String.eqb fileName "" then (None, Some (ErrNew "no such file"), w)
               else (Some fileName, None, w))
            None
            (fun certFile _ w => (None, Some (ErrPath "open" certFile ENOENT), w))
            Some
            (fun addr _ w =>
               if String.eqb addr "up:2288" then (Some addr, None, w)
               else (None, Some (ErrNew "connection refused"), w))
            (fun report _ w => (None, w ++ [default "" report]))
            (fun e => ErrWrap e "stack")
            {[ "service" := "up:2288"; "path" := "report.json";
               "certfile" := "client.pem" ]} []
            None ["report.json"]
            (sampleSend {[ "service" := "up:2288"; "path" := "report.json";
                           "certfile" := "client.pem" ]} false []).2
            "up:2288" [Some None] None _ _).
  - vm_compute. reflexivity.
  - vm_compute. in_trace.
Defined.

End MoreOnSamples.
